(** * The API gateway of the veterinary clinic backend

    A shallow embedding of [src/api_gateway/main.py]: the rate limiter, the
    token verifier, the reverse proxy, the HTTP middleware with its route
    table, the dashboard aggregator and the WebSocket connection manager.

    The gateway is stateful and talks to three kinds of collaborators: the
    Redis server, the backend services over HTTP, and the WebSocket peers.
    What these answer is not decided by the gateway, so it is an input of the
    model (record [Env]); what the gateway keeps or changes is the state
    (record [World]); a Python exception is an outcome [Raise] that
    [try_except] can catch. *)

From stdpp Require Import gmap strings list.
From Stdlib Require Import ZArith Lia Ascii.

Local Open Scope Z_scope.

(** ** JSON values

    [response.json()], the identity record of a user and the bodies the
    gateway answers with are JSON values; a Python [dict] with string keys is
    a finite map. *)

#[warnings="-register-all"]
Inductive json : Type :=
| JNull
| JBool (b : bool)
| JNum (n : Z)
| JStr (s : string)
| JArr (l : list json)
| JObj (o : gmap string json).

(** Python's truth value of a JSON value ([if not user:]). *)
Definition truthy (j : json) : bool :=
  match j with
  | JNull => false
  | JBool b => b
  | JNum n => negb (n =? 0)
  | JStr s => negb (String.eqb s "")
  | JArr l => match l with [] => false | _ => true end
  | JObj o => negb (bool_decide (o = ∅))
  end.

(** ** Exceptions and outcomes *)

(** The exception classes of [httpx] that a request can raise. All of them
    derive from [httpx.RequestError]; the first four derive from
    [httpx.TimeoutException]. *)
Inductive httpx_exc : Type :=
| ConnectTimeout | ReadTimeout | WriteTimeout | PoolTimeout
| ConnectError | ReadError | WriteError | CloseError
| LocalProtocolError | RemoteProtocolError
| ProxyError | UnsupportedProtocol
| DecodingError | TooManyRedirects.

Definition is_TimeoutException (e : httpx_exc) : bool :=
  match e with
  | ConnectTimeout | ReadTimeout | WriteTimeout | PoolTimeout => true
  | _ => false
  end.

Inductive exn : Type :=
| HttpxError (e : httpx_exc) (msg : string)
| RedisError (msg : string)
| ValueError (msg : string)
| HTTPException (status_code : Z) (detail : string)
| OtherException (msg : string).

Inductive outcome (A : Type) : Type :=
| Return (a : A)
| Raise (e : exn).
Arguments Return {A} a.
Arguments Raise {A} e.

(** ** The collaborators and the state *)

(** A WebSocket object; Starlette compares connections by identity. *)
Definition conn : Type := nat.

Inductive pipe_cmd : Type :=
| INCR (key : string)
| EXPIRE (key : string) (seconds : Z).

(** One round trip to the Redis server. *)
Inductive redis_cmd : Type :=
| GET (key : string)
| SETEX (key : string) (seconds : Z) (value : json)
| EXEC (cmds : list pipe_cmd).

Record http_call : Type := {
  c_method : string;
  c_url : string;
  c_headers : gmap string (option string);
  c_params : list (string * string);
  c_content : option string;
  c_timeout : Z
}.

Record http_response : Type := {
  status_code : Z;
  resp_headers : gmap string string;
  resp_json : option json;
  resp_text : string;
  resp_elapsed : json
}.

Inductive http_result : Type :=
| Responds (r : http_response)
| Fails (e : exn).

(** A response of the gateway; header names are stored in lower case, as
    Starlette does. *)
Record Response : Type := {
  r_status : Z;
  r_headers : gmap string string;
  r_content : json
}.

(** What the outside world does during one request. [redis_down c] says that
    the round trip [c] to Redis raises (server unreachable); [httpx_send]
    is the backend's answer to a call; [send_fails] says that writing to a
    WebSocket raises. [now] is the clock in seconds; [uuid4], [process_time]
    and [utcnow] are the texts of [uuid.uuid4()], of the elapsed time and of
    [datetime.utcnow().isoformat()]. [unrouted] is what the framework answers
    when no route of the gateway matches the request. *)
Record Env : Type := {
  now : Z;
  redis_down : redis_cmd -> bool;
  httpx_send : http_call -> http_result;
  send_fails : conn -> string -> bool;
  uuid4 : string;
  process_time : string;
  utcnow : string;
  unrouted : Response
}.

(** A key of the Redis database: the value (as the JSON value whose text the
    key holds; a counter is the text of an integer) and the time at which
    the key expires, if it has a time to live. *)
Record rentry : Type := { rval : json; rexp : option Z }.

Inductive event : Type :=
| EvRedis (c : redis_cmd)
| EvHttp (c : http_call)
| EvDelivered (ws : conn) (message : string).

(** The state: the Redis database, [manager.active_connections], and the
    log of the calls made to the collaborators, oldest first. *)
Record World : Type := {
  redis : gmap string rentry;
  active_connections : list conn;
  trace : list event
}.

Definition set_redis (db : gmap string rentry) (w : World) : World :=
  {| redis := db; active_connections := active_connections w; trace := trace w |}.
Definition set_connections (l : list conn) (w : World) : World :=
  {| redis := redis w; active_connections := l; trace := trace w |}.
Definition log (e : event) (w : World) : World :=
  {| redis := redis w; active_connections := active_connections w;
     trace := trace w ++ [e] |}.

(** ** A state and exception monad *)

Definition ST (S A : Type) : Type := S -> outcome A * S.

Global Instance ST_ret {S : Type} : MRet (ST S) := fun A a s => (Return a, s).
Global Instance ST_bind {S : Type} : MBind (ST S) := fun A B f m s =>
  match m s with
  | (Return a, s') => f a s'
  | (Raise e, s') => (Raise e, s')
  end.

Definition raise {S A : Type} (e : exn) : ST S A := fun s => (Raise e, s).
Definition get_state {S : Type} : ST S S := fun s => (Return s, s).
Definition modify {S : Type} (f : S -> S) : ST S unit := fun s => (Return tt, f s).

(** [try: body except Exception as e: handler e]. What [body] did to the
    state before it raised stays done. *)
Definition try_except {S A : Type} (body : ST S A) (handler : exn -> ST S A) : ST S A :=
  fun s =>
    match body s with
    | (Return a, s') => (Return a, s')
    | (Raise e, s') => handler e s'
    end.

(** The gateway's functions run on the [World]. *)
Abbreviation M := (ST World).

(** A function body with a local variable of type [L] next to the world. *)
Definition lift {L A : Type} (m : M A) : ST (L * World) A :=
  fun '(l, w) => let '(r, w') := m w in (r, (l, w')).
Definition set_local {L : Type} (f : L -> L) : ST (L * World) unit :=
  fun '(l, w) => (Return tt, (f l, w)).

(** ** The Redis server

    Keys expire lazily: a key reads as absent once the clock is past its
    expiry time, and is still served at the expiry time itself. Every
    command is a round trip that is logged and that raises when the server
    is down. *)
Module Redis.

Definition int64_max : Z := 9223372036854775807.

Definition expired (t : Z) (e : rentry) : bool :=
  match rexp e with
  | Some deadline => deadline <? t
  | None => false
  end.

Definition lookup (t : Z) (k : string) (db : gmap string rentry) : option rentry :=
  match db !! k with
  | Some e => if expired t e then None else Some e
  | None => None
  end.

(** INCR: a missing key counts from 0 and gets no time to live; the time
    to live of a present key is kept; a value that is not a 64-bit integer,
    or an increment past the 64-bit range, is an error reply. *)
Definition incr (t : Z) (k : string) (db : gmap string rentry)
  : option Z * gmap string rentry :=
  match lookup t k db with
  | None => (Some 1, <[k := {| rval := JNum 1; rexp := None |}]> db)
  | Some e =>
      match rval e with
      | JNum n =>
          if n <? int64_max
          then (Some (n + 1), <[k := {| rval := JNum (n + 1); rexp := rexp e |}]> db)
          else (None, db)
      | _ => (None, db)
      end
  end.

(** EXPIRE: 0 when the key does not exist; otherwise 1, and the key gets a
    new deadline, or is deleted when [seconds] is not positive. *)
Definition expire (t : Z) (k : string) (seconds : Z) (db : gmap string rentry)
  : option Z * gmap string rentry :=
  match lookup t k db with
  | None => (Some 0, db)
  | Some e =>
      if seconds <=? 0 then (Some 1, delete k db)
      else (Some 1, <[k := {| rval := rval e; rexp := Some (t + seconds) |}]> db)
  end.

Definition run_cmd (t : Z) (c : pipe_cmd) (db : gmap string rentry)
  : option Z * gmap string rentry :=
  match c with
  | INCR k => incr t k db
  | EXPIRE k s => expire t k s db
  end.

(** The queued commands of a transaction run in order; an error reply of
    one of them does not stop the others. *)
Fixpoint run_cmds (t : Z) (cs : list pipe_cmd) (db : gmap string rentry)
  : list (option Z) * gmap string rentry :=
  match cs with
  | [] => ([], db)
  | c :: cs' =>
      let '(r, db1) := run_cmd t c db in
      let '(rs, db2) := run_cmds t cs' db1 in
      (r :: rs, db2)
  end.

Fixpoint replies (rs : list (option Z)) : option (list Z) :=
  match rs with
  | [] => Some []
  | Some r :: rs' => match replies rs' with Some l => Some (r :: l) | None => None end
  | None :: _ => None
  end.

Section Client.
Variable env : Env.

Definition roundtrip (c : redis_cmd) : M unit :=
  fun w =>
    if redis_down env c
    then (Raise (RedisError "ConnectionError"), log (EvRedis c) w)
    else (Return tt, log (EvRedis c) w).

(** [redis_client.get(key)] *)
Definition get (k : string) : M (option json) :=
  _ ← roundtrip (GET k);
  w ← get_state;
  mret (rval <$> lookup (now env) k (redis w)).

(** [redis_client.setex(key, seconds, value)] *)
Definition setex (k : string) (seconds : Z) (v : json) : M unit :=
  _ ← roundtrip (SETEX k seconds v);
  if seconds <=? 0
  then raise (RedisError "invalid expire time in setex")
  else modify (fun w =>
         set_redis (<[k := {| rval := v; rexp := Some (now env + seconds) |}]> (redis w)) w).

(** [pipe.execute()] of a pipeline holding the commands [cs]: the
    replies, or [ResponseError] when a command was answered by an
    error. *)
Definition execute (cs : list pipe_cmd) : M (list Z) :=
  _ ← roundtrip (EXEC cs);
  w ← get_state;
  let '(rs, db) := run_cmds (now env) cs (redis w) in
  _ ← modify (set_redis db);
  match replies rs with
  | Some l => mret l
  | None => raise (RedisError "ResponseError")
  end.
End Client.

End Redis.

(** ** Rate limiting *)

Record RateLimiter : Type := { max_requests : Z; window : Z }.

(** [rate_limiter = RateLimiter(redis_client)] with the default arguments. *)
Definition rate_limiter : RateLimiter := {| max_requests := 100; window := 3600 |}.

Definition rate_key (identifier : string) : string := "rate_limit:" +:+ identifier.

(** [RateLimiter.is_allowed] *)
Definition is_allowed (env : Env) (self : RateLimiter) (identifier : string) : M bool :=
  let key := rate_key identifier in
  result ← Redis.execute env [INCR key; EXPIRE key (window self)];
  match result with
  | current_requests :: _ => mret (current_requests <=? max_requests self)
  | [] => raise (OtherException "IndexError")
  end.

(** ** Strings *)

(** Python's [s.replace(old, new)]: the occurrences of [old] are found from
    left to right, without overlap. [skip] counts the characters of the
    current occurrence that are still to be dropped. *)
Fixpoint replace_from (old new : string) (skip : nat) (s : string) : string :=
  match s with
  | EmptyString => EmptyString
  | String c s' =>
      match skip with
      | S k => replace_from old new k s'
      | O =>
          if String.prefix old s
          then new +:+ replace_from old new (String.length old - 1) s'
          else String c (replace_from old new 0 s')
      end
  end.

Fixpoint intersperse (new : string) (s : string) : string :=
  match s with
  | EmptyString => EmptyString
  | String c s' => String c (new +:+ intersperse new s')
  end.

Definition str_replace (s old new : string) : string :=
  match old with
  | EmptyString => new +:+ intersperse new s
  | _ => replace_from old new 0 s
  end.

(** [old in s] *)
Fixpoint contains (old s : string) : bool :=
  String.prefix old s ||
  match s with
  | EmptyString => false
  | String _ s' => contains old s'
  end.

Fixpoint drop_chars (n : nat) (s : string) : string :=
  match n, s with
  | O, _ => s
  | S k, EmptyString => EmptyString
  | S k, String _ s' => drop_chars k s'
  end.

(** ** Requests and the service table *)

(** An inbound request. Header names are stored in lower case, as Starlette
    does; [req_query] holds the parameters of the query string, in their
    order and with their repetitions; [req_state_id] is
    [request.state.request_id], unset at first. *)
Record Request : Type := {
  req_method : string;
  req_path : string;
  req_query : list (string * string);
  req_headers : gmap string string;
  req_client_host : string;
  req_body : string;
  req_state_id : option string
}.

(** The entries of [SERVICES] in the order of the dict. *)
Definition SERVICES_items : list (string * string) :=
  [
    ("auth", "http://auth-service:8001");
    ("clients", "http://clients-pets-service:8002");
    ("appointments", "http://appointments-service:8003");
    ("medical", "http://medical-records-service:8004");
    ("billing", "http://billing-service:8005");
    ("notifications", "http://notifications-service:8006");
    ("employees", "http://employees-service:8007")
  ].

Definition SERVICES : gmap string string := list_to_map SERVICES_items.

(** [d[k]] on a dict. *)
Definition getitem {A : Type} (d : gmap string A) (k : string) : M A :=
  match d !! k with
  | Some v => mret v
  | None => raise (OtherException "KeyError")
  end.

(** [await client.get(...)], [await client.request(...)] *)
Definition send (env : Env) (c : http_call) : M http_response :=
  fun w =>
    match httpx_send env c with
    | Responds r => (Return r, log (EvHttp c) w)
    | Fails e => (Raise e, log (EvHttp c) w)
    end.

(** [response.json()] *)
Definition response_json (r : http_response) : M json :=
  match resp_json r with
  | Some j => mret j
  | None => raise (ValueError "JSONDecodeError")
  end.

(** ** Token verification *)

Definition token_key (token : string) : string := "token:" +:+ token.

Definition verify_call (token : string) : string -> http_call := fun base =>
  {| c_method := "GET";
     c_url := base +:+ "/verify-token";
     c_headers := {[ "Authorization" := Some ("Bearer " +:+ token) ]};
     c_params := [];
     c_content := None;
     c_timeout := 5 |}.

(** [verify_token]; Python's [None] is [JNull]. A cached text is never
    empty, and [json.loads] gives back the value that [json.dumps] wrote. *)
Definition verify_token (env : Env) (request : Request) : M json :=
  match req_headers request !! "authorization" with
  | None => mret JNull
  | Some token =>
      if String.eqb token "" then mret JNull
      else
        try_except
          (let token := str_replace token "Bearer " "" in
           cached_user ← Redis.get env (token_key token);
           match cached_user with
           | Some user => mret user
           | None =>
               base ← getitem SERVICES "auth";
               response ← send env (verify_call token base);
               if status_code response =? 200
               then
                 user_data ← response_json response;
                 _ ← Redis.setex env (token_key token) 600 user_data;
                 mret user_data
               else mret JNull
           end)
          (fun e => mret JNull)
  end.

(** [get_current_user] *)
Definition get_current_user (env : Env) (request : Request) : M json :=
  user ← verify_token env request;
  if truthy user then mret user
  else raise (HTTPException 401 "Token inválido o expirado").

(** ** Responses *)

Definition lower_ascii (c : ascii) : ascii :=
  let n := nat_of_ascii c in
  if ((65 <=? n) && (n <=? 90))%nat then ascii_of_nat (n + 32) else c.

Fixpoint lower (s : string) : string :=
  match s with
  | EmptyString => EmptyString
  | String c s' => String (lower_ascii c) (lower s')
  end.

(** [JSONResponse(content=..., status_code=..., headers=...)]. The
    content-length and content-type headers that Starlette adds are left
    out. *)
Definition JSONResponse (content : json) (status : Z) (headers : gmap string string)
  : Response :=
  {| r_status := status; r_headers := headers; r_content := content |}.

(** [response.headers[name] = value] *)
Definition set_header (name value : string) (r : Response) : Response :=
  {| r_status := r_status r;
     r_headers := <[lower name := value]> (r_headers r);
     r_content := r_content r |}.

(** [name in response.headers] *)
Definition has_header (name : string) (r : Response) : bool :=
  bool_decide (is_Some (r_headers r !! lower name)).

(** ** The proxy *)

(** [d[k] = v] on a dict, seen as the list of its items: a key that is
    there keeps its place and gets the new value. *)
Fixpoint dict_set (k v : string) (d : list (string * string)) : list (string * string) :=
  match d with
  | [] => [(k, v)]
  | (k', v') :: d' =>
      if decide (k = k') then (k, v) :: d' else (k', v') :: dict_set k v d'
  end.

(** [request.query_params.items()], which is what httpx reads of
    [params=request.query_params]: Starlette keeps the parameters in a
    dict as well, built from the pairs in order, so a key that the query
    string repeats has one item, with its last value. *)
Definition query_items (query : list (string * string)) : list (string * string) :=
  foldl (fun d item => dict_set item.1 item.2 d) [] query.

Definition carries_body (method : string) : bool :=
  bool_decide (method ∈ ["POST"; "PUT"; "PATCH"]).

Definition starts_with (p s : string) : bool := String.prefix p s.

(** [proxy_request] *)
Definition proxy_request (env : Env) (service_name path : string) (request : Request)
  : M Response :=
  match SERVICES !! service_name with
  | None => raise (HTTPException 404 ("Service " +:+ service_name +:+ " not found"))
  | Some service_url =>
      let target_url := service_url +:+ path in
      match req_state_id request with
      | None => raise (OtherException "AttributeError")
      | Some request_id =>
          let headers :=
            <["X-Forwarded-For" := Some (req_client_host request)]>
              (<["X-Request-ID" := Some request_id]> (Some <$> req_headers request)) in
          let body :=
            if carries_body (req_method request) then Some (req_body request) else None in
          try_except
            (response ← send env
               {| c_method := req_method request;
                  c_url := target_url;
                  c_headers := headers;
                  c_params := query_items (req_query request);
                  c_content := body;
                  c_timeout := 30 |};
             let response_headers :=
               delete "transfer-encoding" (delete "content-encoding" (resp_headers response)) in
             content ←
               (if starts_with "application/json"
                     (default "" (resp_headers response !! "content-type"))
                then response_json response
                else mret (JStr (resp_text response)));
             mret (JSONResponse content (status_code response) response_headers))
            (fun e =>
               match e with
               | HttpxError x _ =>
                   if is_TimeoutException x
                   then raise (HTTPException 504 ("Timeout calling " +:+ service_name))
                   else raise (HTTPException 503
                                 ("Service " +:+ service_name +:+ " unavailable"))
               | _ => raise e
               end)
      end
  end.

(** ** The health check *)

(** [str(e)] *)
Definition exn_str (e : exn) : string :=
  match e with
  | HttpxError _ msg | RedisError msg | ValueError msg | OtherException msg => msg
  | HTTPException _ detail => detail
  end.

Definition health_call (url : string) : http_call :=
  {| c_method := "GET"; c_url := url +:+ "/health"; c_headers := ∅;
     c_params := []; c_content := None; c_timeout := 5 |}.

(** The body of the loop of [health_check]: the entry of one service. The
    client of the loop has a timeout of 5 seconds. *)
Definition probe (env : Env) (url : string) : M json :=
  try_except
    (response ← send env (health_call url);
     mret (JObj (<["status" :=
                     JStr (if status_code response =? 200 then "healthy" else "unhealthy")]>
                 (<["response_time" := resp_elapsed response]>
                 {["status_code" := JNum (status_code response)]}))))
    (fun e => mret (JObj (<["status" := JStr "unhealthy"]> {["error" := JStr (exn_str e)]}))).

(** The loop [for name, url in SERVICES.items()] over the entries that are
    left. *)
Fixpoint probe_all (env : Env) (items : list (string * string))
    (services_health : gmap string json) : M (gmap string json) :=
  match items with
  | [] => mret services_health
  | (name, url) :: rest =>
      entry ← probe env url;
      probe_all env rest (<[name := entry]> services_health)
  end.

(** [s["status"] == "healthy"] *)
Definition is_healthy (s : json) : bool :=
  match s with
  | JObj o => match o !! "status" with
              | Some (JStr st) => String.eqb st "healthy"
              | _ => false
              end
  | _ => false
  end.

Definition all_healthy (services_health : gmap string json) : bool :=
  bool_decide (map_Forall (fun _ s => is_healthy s = true) services_health).

(** [health_check] *)
Definition health_check (env : Env) : M json :=
  services_health ← probe_all env SERVICES_items ∅;
  mret (JObj (<["status" :=
                  JStr (if all_healthy services_health then "healthy" else "degraded")]>
              (<["timestamp" := JStr (utcnow env)]>
              {["services" := JObj services_health]}))).

(** ** The dashboard summary *)

Definition dashboard_call (url : string) (authorization : option string) : http_call :=
  {| c_method := "GET"; c_url := url;
     c_headers := {["Authorization" := authorization]};
     c_params := []; c_content := None; c_timeout := 10 |}.

(** One of the three requests inside the [try] of [dashboard_summary]; the
    local variable is the dict [summary]. *)
Definition fetch_into (env : Env) (request : Request) (service path field : string)
  : ST (gmap string json * World) unit :=
  base ← lift (getitem SERVICES service);
  response ← lift (send env (dashboard_call (base +:+ path)
                                (req_headers request !! "authorization")));
  if status_code response =? 200
  then
    data ← lift (response_json response);
    set_local (fun summary => <[field := data]> summary)
  else mret tt.

(** [dashboard_summary], after its dependency [get_current_user]. *)
Definition dashboard_summary (env : Env) (request : Request) : M json :=
  fun w =>
    let '(_, (summary, w')) :=
      try_except
        (_ ← fetch_into env request "appointments" "/today" "todays_appointments";
         _ ← fetch_into env request "billing" "/pending" "pending_invoices";
         fetch_into env request "notifications" "/pending" "pending_notifications")
        (fun e => set_local (fun summary =>
                     <["error" := JStr "Error fetching some dashboard data"]> summary))
        (∅, w) in
    (Return (JObj summary), w').

(** ** Routes *)

Inductive endpoint : Type :=
| health_route
| auth_route (path : string)
| service_route (service path : string)
| dashboard_route
| no_route.

(** The routes without authentication: the path and the path on the
    authentication service. *)
Definition public_routes : gmap string string :=
  list_to_map
    [("/auth/login", "/login"); ("/auth/register", "/register");
     ("/auth/refresh", "/refresh"); ("/auth/forgot-password", "/forgot-password")].

Definition protected_services : list string :=
  ["clients"; "appointments"; "medical"; "billing"; "notifications"; "employees"].

(** The route [/<service>/{path:path}]: the path parameter of a matching
    path. *)
Definition match_service (path service : string) : option string :=
  let pre := "/" +:+ service +:+ "/" in
  if String.prefix pre path then Some (drop_chars (String.length pre) path) else None.

Fixpoint first_service (path : string) (services : list string) : option (string * string) :=
  match services with
  | [] => None
  | s :: rest =>
      match match_service path s with
      | Some p => Some (s, p)
      | None => first_service path rest
      end
  end.

(** The route decorators: which endpoint answers a request. *)
Definition route (request : Request) : endpoint :=
  let method := req_method request in
  let path := req_path request in
  if String.eqb path "/health" && String.eqb method "GET" then health_route
  else
    match public_routes !! path with
    | Some target => if String.eqb method "POST" then auth_route target else no_route
    | None =>
        match first_service path protected_services with
        | Some (s, p) =>
            if bool_decide (method ∈ ["GET"; "POST"; "PUT"; "DELETE"])
            then service_route s p else no_route
        | None =>
            if String.eqb path "/dashboard/summary" && String.eqb method "GET"
            then dashboard_route else no_route
        end
    end.

(** ** The application behind the middleware *)

(** A dict returned by an endpoint becomes a JSON response with status 200. *)
Definition ok_response (content : json) : Response := JSONResponse content 200 ∅.

Definition endpoint_response (env : Env) (e : endpoint) (request : Request) : M Response :=
  match e with
  | health_route =>
      content ← health_check env;
      mret (ok_response content)
  | auth_route target => proxy_request env "auth" target request
  | service_route service path =>
      user ← get_current_user env request;
      proxy_request env service ("/" +:+ path) request
  | dashboard_route =>
      user ← get_current_user env request;
      summary ← dashboard_summary env request;
      mret (ok_response summary)
  | no_route => mret (unrouted env)
  end.

(** [call_next]: the router, and FastAPI's handler that turns an
    [HTTPException] into a response; any other exception goes on. *)
Definition call_next (env : Env) (request : Request) : M Response :=
  try_except
    (endpoint_response env (route request) request)
    (fun e =>
       match e with
       | HTTPException status detail =>
           mret (JSONResponse (JObj {["detail" := JStr detail]}) status ∅)
       | _ => raise e
       end).

Definition set_request_id (request_id : string) (request : Request) : Request :=
  {| req_method := req_method request; req_path := req_path request;
     req_query := req_query request; req_headers := req_headers request;
     req_client_host := req_client_host request; req_body := req_body request;
     req_state_id := Some request_id |}.

Definition client_identifier (request : Request) : string :=
  let client_ip := req_client_host request in
  let user_agent := default "unknown" (req_headers request !! "user-agent") in
  client_ip +:+ ":" +:+ user_agent.

(** [logging_and_rate_limit_middleware] *)
Definition logging_and_rate_limit_middleware (env : Env) (request : Request) : M Response :=
  let identifier := client_identifier request in
  allowed ← is_allowed env rate_limiter identifier;
  if negb allowed
  then mret (JSONResponse (JObj {["detail" := JStr "Rate limit exceeded"]}) 429 ∅)
  else
    let request_id := uuid4 env in
    let request := set_request_id request_id request in
    response ← call_next env request;
    mret (set_header "X-Process-Time" (process_time env)
            (set_header "X-Request-ID" request_id response)).

(** ** The connection manager *)

(** [l.remove(x)]: the first occurrence goes; [None] is [ValueError]. *)
Fixpoint list_remove (x : conn) (l : list conn) : option (list conn) :=
  match l with
  | [] => None
  | y :: l' =>
      if decide (x = y) then Some l'
      else cons y <$> list_remove x l'
  end.

Definition remove_connection (ws : conn) : M unit :=
  w ← get_state;
  match list_remove ws (active_connections w) with
  | Some l => modify (set_connections l)
  | None => raise (ValueError "list.remove(x): x not in list")
  end.

(** [ConnectionManager.connect], the handshake aside. *)
Definition connect (ws : conn) : M unit :=
  modify (fun w => set_connections (active_connections w ++ [ws]) w).

(** [ConnectionManager.disconnect] *)
Definition disconnect (ws : conn) : M unit := remove_connection ws.

(** [await connection.send_text(message)] *)
Definition send_text (env : Env) (ws : conn) (message : string) : M unit :=
  fun w =>
    if send_fails env ws message
    then (Raise (OtherException "WebSocketDisconnect"), w)
    else (Return tt, log (EvDelivered ws message) w).

(** The [for] loop of [broadcast]. A Python list iterator is an index into
    the list as it is at that moment; the loop ends when the index is past
    the end. [fuel] bounds the number of iterations. *)
Fixpoint broadcast_from (env : Env) (fuel : nat) (i : nat) (message : string) : M unit :=
  match fuel with
  | O => mret tt
  | S fuel' =>
      w ← get_state;
      match active_connections w !! i with
      | None => mret tt
      | Some connection =>
          _ ← try_except (send_text env connection message)
                (fun _ => remove_connection connection);
          broadcast_from env fuel' (S i) message
      end
  end.

(** [ConnectionManager.broadcast]: the list never grows during the loop, so
    its length at the start is fuel enough. *)
Definition broadcast (env : Env) (message : string) : M unit :=
  w ← get_state;
  broadcast_from env (length (active_connections w)) 0 message.

(** ** Vocabulary of the properties *)

(** The same outside world at another time. *)
Definition at_time (env : Env) (t : Z) : Env :=
  {| now := t; redis_down := redis_down env; httpx_send := httpx_send env;
     send_fails := send_fails env; uuid4 := uuid4 env;
     process_time := process_time env; utcnow := utcnow env; unrouted := unrouted env |}.

(** The world with more calls in its log. *)
Definition logs (evs : list event) (w : World) : World :=
  {| redis := redis w; active_connections := active_connections w;
     trace := trace w ++ evs |}.

(** *** The rate limiter *)

(** The transaction that [is_allowed] sends. *)
Definition limiter_cmds (self : RateLimiter) (identifier : string) : list pipe_cmd :=
  [INCR (rate_key identifier); EXPIRE (rate_key identifier) (window self)].

(** The counter of an identifier as a request at time [t] finds it. *)
Definition count_at (t : Z) (identifier : string) (w : World) : Z :=
  match Redis.lookup t (rate_key identifier) (redis w) with
  | Some e => match rval e with JNum n => n | _ => 0 end
  | None => 0
  end.

(** The counter is absent, or an integer that can be incremented. *)
Definition counter_ok (t : Z) (identifier : string) (w : World) : Prop :=
  match Redis.lookup t (rate_key identifier) (redis w) with
  | Some e => exists n, rval e = JNum n /\ n < Redis.int64_max
  | None => True
  end.

(** The counter of an identifier as the database holds it. *)
Definition counter_entry (identifier : string) (w : World) : option rentry :=
  redis w !! rate_key identifier.

(** The world once the counter of an identifier is [n] until [deadline]. *)
Definition counted (identifier : string) (n deadline : Z) (w : World) : World :=
  set_redis (<[rate_key identifier := {| rval := JNum n; rexp := Some deadline |}]> (redis w)) w.

(** Calls of [is_allowed] for one identifier at the times [ts]. *)
Fixpoint calls (env : Env) (self : RateLimiter) (identifier : string) (ts : list Z)
  : M (list bool) :=
  match ts with
  | [] => mret []
  | t :: ts' =>
      b ← is_allowed (at_time env t) self identifier;
      bs ← calls env self identifier ts';
      mret (b :: bs)
  end.

(** Every time of [ts] is less than a window after the time before it,
    starting from [t0]. *)
Fixpoint within_window (win t0 : Z) (ts : list Z) : Prop :=
  match ts with
  | [] => True
  | t :: ts' => t0 <= t < t0 + win /\ within_window win t ts'
  end.

(** The response to a request that the rate limiter denies. *)
Definition rate_limited_response : Response :=
  JSONResponse (JObj {["detail" := JStr "Rate limit exceeded"]}) 429 ∅.

(** *** Token verification and the proxy *)

Definition auth_url : string := "http://auth-service:8001".

(** The token that [verify_token] works with. *)
Definition effective_token (authorization : string) : string :=
  str_replace authorization "Bearer " "".

(** The call that [proxy_request] sends for a request whose
    [request.state.request_id] is [request_id]. *)
Definition proxy_call (service_url path request_id : string) (request : Request) : http_call :=
  {| c_method := req_method request;
     c_url := service_url +:+ path;
     c_headers :=
       <["X-Forwarded-For" := Some (req_client_host request)]>
         (<["X-Request-ID" := Some request_id]> (Some <$> req_headers request));
     c_params := query_items (req_query request);
     c_content := if carries_body (req_method request) then Some (req_body request) else None;
     c_timeout := 30 |}.

(** *** The health check *)

(** Whether the health probe of a backend is answered with status 200. *)
Definition responds_200 (env : Env) (url : string) : bool :=
  match httpx_send env (health_call url) with
  | Responds r => status_code r =? 200
  | Fails _ => false
  end.

(** The entry that [health_check] records for a backend. *)
Definition probe_entry (env : Env) (url : string) : json :=
  match httpx_send env (health_call url) with
  | Responds r =>
      JObj (<["status" := JStr (if status_code r =? 200 then "healthy" else "unhealthy")]>
           (<["response_time" := resp_elapsed r]>
           {["status_code" := JNum (status_code r)]}))
  | Fails e => JObj (<["status" := JStr "unhealthy"]> {["error" := JStr (exn_str e)]})
  end.

(** The dict [services_health] once the backends [items] are probed. *)
Definition probed (env : Env) (items : list (string * string)) (acc : gmap string json)
  : gmap string json :=
  foldl (fun m item => <[item.1 := probe_entry env item.2]> m) acc items.

(** The body that [health_check] returns. *)
Definition health_body (env : Env) (items : list (string * string)) : json :=
  JObj (<["status" :=
            JStr (if forallb (fun item => responds_200 env item.2) items
                  then "healthy" else "degraded")]>
       (<["timestamp" := JStr (utcnow env)]>
       {["services" := JObj (probed env items ∅)]})).

(** *** The dashboard summary and the connection manager *)

(** The three calls of [dashboard_summary]. *)
Definition appointments_call (request : Request) : http_call :=
  dashboard_call "http://appointments-service:8003/today"
    (req_headers request !! "authorization").
Definition billing_call (request : Request) : http_call :=
  dashboard_call "http://billing-service:8005/pending"
    (req_headers request !! "authorization").
Definition notifications_call (request : Request) : http_call :=
  dashboard_call "http://notifications-service:8006/pending"
    (req_headers request !! "authorization").

Definition error_note : json := JStr "Error fetching some dashboard data".

(** What [list.remove] raises for an element that is not in the list. *)
Definition not_in_list : exn := ValueError "list.remove(x): x not in list".

(** ** Concrete worlds *)

(** An outside world in which Redis answers, every backend refuses the
    connection and every WebSocket write succeeds. *)
Definition quiet_env : Env :=
  {| now := 0; redis_down := fun _ => false;
     httpx_send := fun _ => Fails (HttpxError ConnectError "connection refused");
     send_fails := fun _ _ => false;
     uuid4 := "3f0c"; process_time := "0.01"; utcnow := "2024-01-01T00:00:00";
     unrouted := JSONResponse (JObj {["detail" := JStr "Not Found"]}) 404 ∅ |}.

(** [quiet_env] with other backends, another Redis, other peers. *)
Definition with_backend (f : http_call -> http_result) (env : Env) : Env :=
  {| now := now env; redis_down := redis_down env; httpx_send := f;
     send_fails := send_fails env; uuid4 := uuid4 env;
     process_time := process_time env; utcnow := utcnow env; unrouted := unrouted env |}.
Definition with_redis_down (f : redis_cmd -> bool) (env : Env) : Env :=
  {| now := now env; redis_down := f; httpx_send := httpx_send env;
     send_fails := send_fails env; uuid4 := uuid4 env;
     process_time := process_time env; utcnow := utcnow env; unrouted := unrouted env |}.
Definition with_send_fails (f : conn -> string -> bool) (env : Env) : Env :=
  {| now := now env; redis_down := redis_down env; httpx_send := httpx_send env;
     send_fails := f; uuid4 := uuid4 env;
     process_time := process_time env; utcnow := utcnow env; unrouted := unrouted env |}.

(** The state at startup, and the state with the live connections [l]. *)
Definition empty_world : World := {| redis := ∅; active_connections := []; trace := [] |}.
Definition connected (l : list conn) : World := set_connections l empty_world.

(** A limiter of two requests per ten seconds. *)
Definition two_per_ten : RateLimiter := {| max_requests := 2; window := 10 |}.

(** The state after one hundred requests of the client 10.0.0.7 with the
    user agent curl, all at second 0. *)
Definition saturated : World :=
  (calls quiet_env rate_limiter "10.0.0.7:curl" (replicate 100 0) empty_world).2.

(** A backend answer 200 with the JSON body [j]. *)
Definition listing (j : json) : http_response :=
  {| status_code := 200; resp_headers := {["content-type" := "application/json"]};
     resp_json := Some j; resp_text := ""; resp_elapsed := JNum 0 |}.

(** The identity record of a user, and the two answers of the
    authentication service. *)
Definition alice : json :=
  JObj (<["id" := JStr "7"]> {["username" := JStr "alice"]}).
Definition accepted : http_response := listing alice.
Definition rejected : http_response :=
  {| status_code := 401; resp_headers := {["content-type" := "application/json"]};
     resp_json := Some (JObj {["detail" := JStr "Token inválido"]});
     resp_text := ""; resp_elapsed := JNum 0 |}.

(** A request for a protected route with the given Authorization header,
    and a request for the health check, both of the client 10.0.0.7 with
    the user agent curl. *)
Definition bearer_request (authorization : string) : Request :=
  {| req_method := "GET"; req_path := "/clients/42"; req_query := [];
     req_headers := <["authorization" := authorization]> {["user-agent" := "curl"]};
     req_client_host := "10.0.0.7"; req_body := ""; req_state_id := None |}.
Definition health_request : Request :=
  {| req_method := "GET"; req_path := "/health"; req_query := [];
     req_headers := {["user-agent" := "curl"]};
     req_client_host := "10.0.0.7"; req_body := ""; req_state_id := None |}.

(** Redis is unreachable and every backend answers 200 with the identity
    of alice. *)
Definition redis_off : Env :=
  with_redis_down (fun _ => true) (with_backend (fun _ => Responds accepted) quiet_env).

(** At time [t], the authentication service accepts a token until the time
    [expiry]. *)
Definition auth_env (expiry t : Z) : Env :=
  at_time (with_backend (fun _ => Responds (if t <? expiry then accepted else rejected))
             quiet_env) t.

(** The call to a backend raises [x]. *)
Definition failing_backend (x : httpx_exc) : Env :=
  with_backend (fun _ => Fails (HttpxError x "backend call failed")) quiet_env.

(** The appointments service refuses the connection and every other backend
    answers 200 with an empty list. *)
Definition appointments_down : Env :=
  with_backend
    (fun c =>
       if String.eqb (c_url c) "http://appointments-service:8003/today"
       then Fails (HttpxError ConnectError "connection refused")
       else Responds (listing (JArr [])))
    quiet_env.

(** Exactly the writes to the connection [k] fail. *)
Definition peer_gone (k : conn) : Env :=
  with_send_fails (fun ws _ => bool_decide (ws = k)) quiet_env.

(** The response 401 of a protected route, once through the middleware of
    [quiet_env]. *)
Definition unauthorized_response : Response :=
  JSONResponse (JObj {["detail" := JStr "Token inválido o expirado"]}) 401
    (<["x-process-time" := "0.01"]> {["x-request-id" := "3f0c"]}).


(** ** More concrete worlds *)

(** The state once the identity of alice is cached for the token [tok], at
    second 0. *)
Definition alice_cached : World :=
  (verify_token (auth_env 60 0) (bearer_request "Bearer tok") empty_world).2.

(** The headers of a backend answer that the proxy passes on. *)
Definition passed_headers (r : http_response) : gmap string string :=
  delete "transfer-encoding" (delete "content-encoding" (resp_headers r)).

(** Whether the content type of a backend answer announces JSON. *)
Definition announces_json (r : http_response) : bool :=
  starts_with "application/json" (default "" (resp_headers r !! "content-type")).

(** A compressed HTML page of a backend, with status 404. *)
Definition html_page : http_response :=
  {| status_code := 404;
     resp_headers := <["content-encoding" := "gzip"]>
                       (<["content-type" := "text/html"]> {["x-served-by" := "billing-1"]});
     resp_json := None; resp_text := "<h1>Not Found</h1>"; resp_elapsed := JNum 0 |}.

(** A backend answer that announces JSON and holds none. *)
Definition broken_json : http_response :=
  {| status_code := 200; resp_headers := {["content-type" := "application/json"]};
     resp_json := None; resp_text := "<html>"; resp_elapsed := JNum 0 |}.

(** A request as the middleware hands it on, with its request id. *)
Definition tracked_request : Request := set_request_id "3f0c" (bearer_request "Bearer tok").

(** A request with the query string [?a=1&a=2&b=3], as the middleware hands
    it on. *)
Definition repeated_query_request : Request :=
  {| req_method := "GET"; req_path := "/billing/invoices";
     req_query := [("a", "1"); ("a", "2"); ("b", "3")];
     req_headers := <["authorization" := "Bearer tok"]> {["user-agent" := "curl"]};
     req_client_host := "10.0.0.7"; req_body := ""; req_state_id := Some "3f0c" |}.

(** A login request as the middleware hands it on. *)
Definition login_request : Request :=
  {| req_method := "POST"; req_path := "/auth/login"; req_query := [];
     req_headers := <["content-type" := "application/json"]> {["user-agent" := "curl"]};
     req_client_host := "10.0.0.7"; req_body := "{}"; req_state_id := Some "3f0c" |}.

(** A request for a protected route without an Authorization header. *)
Definition anonymous_request : Request :=
  {| req_method := "GET"; req_path := "/billing/invoices"; req_query := [];
     req_headers := {["user-agent" := "curl"]};
     req_client_host := "10.0.0.7"; req_body := ""; req_state_id := Some "3f0c" |}.




(** ** The WebSocket endpoint *)

(** [WebSocketDisconnect], as [send_text] and [receive_text] raise it. *)
Definition WebSocketDisconnect : exn := OtherException "WebSocketDisconnect".

Definition is_WebSocketDisconnect (e : exn) : bool :=
  match e with
  | OtherException msg => String.eqb msg "WebSocketDisconnect"
  | _ => false
  end.

(** [ConnectionManager.send_personal_message] *)
Definition send_personal_message (env : Env) (message : string) (ws : conn) : M unit :=
  send_text env ws message.

(** The end of the loop [while True: await websocket.receive_text()] of
    [websocket_endpoint]: the texts received are dropped, so the loop does
    nothing until [receive_text] raises [ending]. *)
Definition receive_until (ending : exn) : M unit := raise ending.

(** [websocket_endpoint], for a connection whose [receive_text] raises
    [ending] in the end: only [WebSocketDisconnect] is caught. *)
Definition websocket_endpoint (ws : conn) (ending : exn) : M unit :=
  _ ← connect ws;
  try_except (receive_until ending)
    (fun e => if is_WebSocketDisconnect e then disconnect ws else raise e).

(** A request for the dashboard with the token of alice. *)
Definition dashboard_request : Request :=
  {| req_method := "GET"; req_path := "/dashboard/summary"; req_query := [];
     req_headers := <["authorization" := "Bearer tok"]> {["user-agent" := "curl"]};
     req_client_host := "10.0.0.7"; req_body := ""; req_state_id := Some "3f0c" |}.
(** * Properties *)

(** ** The Redis model *)

Lemma lookup_Some_live t k (db : gmap string rentry) e :
  Redis.lookup t k db = Some e -> db !! k = Some e /\ Redis.expired t e = false.
Proof.
  unfold Redis.lookup. destruct (db !! k) as [e'|]; [|discriminate].
  destruct (Redis.expired t e') eqn:E; [discriminate|].
  intros [= <-]. auto.
Qed.

Lemma lookup_insert_live t k (db : gmap string rentry) e :
  Redis.expired t e = false -> Redis.lookup t k (<[k := e]> db) = Some e.
Proof. intros H. unfold Redis.lookup. rewrite lookup_insert_eq. by rewrite H. Qed.

Lemma lookup_expired t k (db : gmap string rentry) v d :
  db !! k = Some {| rval := v; rexp := Some d |} -> d < t -> Redis.lookup t k db = None.
Proof.
  intros H Hd. unfold Redis.lookup, Redis.expired. rewrite H. simpl.
  destruct (Z.ltb_spec d t); [done | lia].
Qed.

Lemma lookup_alive t k (db : gmap string rentry) v d :
  db !! k = Some {| rval := v; rexp := Some d |} -> t <= d ->
  Redis.lookup t k db = Some {| rval := v; rexp := Some d |}.
Proof.
  intros H Hd. unfold Redis.lookup, Redis.expired. rewrite H. simpl.
  destruct (Z.ltb_spec d t); [lia | done].
Qed.

(** INCR then EXPIRE on a usable counter: the counter is one more, and it
    expires a window from now. *)
Lemma run_limiter_cmds t k win (db : gmap string rentry) :
  0 < win ->
  let n := match Redis.lookup t k db with
           | Some e => match rval e with JNum n => n | _ => 0 end
           | None => 0
           end in
  match Redis.lookup t k db with
  | Some e => exists n, rval e = JNum n /\ n < Redis.int64_max
  | None => True
  end ->
  Redis.run_cmds t [INCR k; EXPIRE k win] db =
    ([Some (n + 1); Some 1], <[k := {| rval := JNum (n + 1); rexp := Some (t + win) |}]> db).
Proof.
  intros Hwin. simpl. unfold Redis.incr, Redis.expire.
  assert ((win <=? 0) = false) as -> by lia.
  destruct (Redis.lookup t k db) as [e|] eqn:L.
  - intros (n & Hn & Hlt). rewrite Hn.
    apply lookup_Some_live in L as [_ Hlive].
    assert ((n <? Redis.int64_max) = true) as -> by lia.
    rewrite lookup_insert_live by (unfold Redis.expired in *; simpl; exact Hlive).
    simpl. by rewrite insert_insert_eq.
  - intros _. rewrite lookup_insert_live by reflexivity.
    simpl. by rewrite insert_insert_eq.
Qed.

(** ** The rate limiter *)

Lemma is_allowed_counts env self identifier w :
  0 < window self ->
  redis_down env (EXEC (limiter_cmds self identifier)) = false ->
  counter_ok (now env) identifier w ->
  is_allowed env self identifier w =
    (Return (count_at (now env) identifier w + 1 <=? max_requests self),
     counted identifier (count_at (now env) identifier w + 1) (now env + window self)
       (log (EvRedis (EXEC (limiter_cmds self identifier))) w)).
Proof.
  intros Hwin Hup Hok.
  unfold is_allowed, Redis.execute, Redis.roundtrip.
  unfold mbind, ST_bind, mret, ST_ret, get_state, modify.
  fold (limiter_cmds self identifier). rewrite Hup. unfold limiter_cmds.
  cbn [redis log].
  rewrite run_limiter_cmds by first [exact Hwin | exact Hok]. reflexivity.
Qed.

Lemma counted_entry identifier n d w :
  counter_entry identifier (counted identifier n d w) =
    Some {| rval := JNum n; rexp := Some d |}.
Proof. unfold counter_entry, counted. simpl. apply lookup_insert_eq. Qed.

Lemma last_cons_default (ts : list Z) :
  forall t d, List.last (t :: ts) d = List.last ts t.
Proof.
  induction ts as [|z ts IH]; intros t d; [reflexivity|].
  change (List.last (z :: ts) d = List.last (z :: ts) t).
  by rewrite !IH.
Qed.

Lemma within_window_app win ts :
  forall t0 t, within_window win t0 (ts ++ [t]) ->
    within_window win t0 ts /\ List.last ts t0 <= t < List.last ts t0 + win.
Proof.
  induction ts as [|z ts IH]; intros t0 t; simpl app.
  - intros [H _]. split; [exact I | exact H].
  - intros [Hz H]. apply IH in H as [H1 H2]. rewrite last_cons_default.
    split; [split; assumption | exact H2].
Qed.

(** The calls of one client to one limiter while Redis answers. *)
Section Window.

Variables (env : Env) (self : RateLimiter) (identifier : string).
Hypothesis redis_up : forall c, redis_down env c = false.

(** A call while the counter is alive. *)
Lemma is_allowed_alive w t c d :
  0 < window self ->
  counter_entry identifier w = Some {| rval := JNum c; rexp := Some d |} ->
  t <= d -> c < Redis.int64_max ->
  exists w',
    is_allowed (at_time env t) self identifier w = (Return (c + 1 <=? max_requests self), w') /\
    counter_entry identifier w' = Some {| rval := JNum (c + 1); rexp := Some (t + window self) |}.
Proof.
  intros Hwin He Ht Hc.
  pose proof (lookup_alive t _ _ _ _ He Ht) as L.
  eexists. rewrite is_allowed_counts.
  - unfold count_at. simpl. rewrite L. simpl. split; [reflexivity|].
    apply counted_entry.
  - exact Hwin.
  - apply redis_up.
  - unfold counter_ok. simpl. rewrite L. eauto.
Qed.

(** A call when the counter is absent or has expired. *)
Lemma is_allowed_fresh w t :
  0 < window self ->
  Redis.lookup t (rate_key identifier) (redis w) = None ->
  exists w',
    is_allowed (at_time env t) self identifier w = (Return (1 <=? max_requests self), w') /\
    counter_entry identifier w' = Some {| rval := JNum 1; rexp := Some (t + window self) |}.
Proof.
  intros Hwin L.
  eexists. rewrite is_allowed_counts.
  - unfold count_at. simpl. rewrite L. simpl. split; [reflexivity|].
    apply counted_entry.
  - exact Hwin.
  - apply redis_up.
  - unfold counter_ok. simpl. by rewrite L.
Qed.

(** Calls that stay below the limit, each before the counter expires: all
    are allowed, and the counter has counted them. *)
Lemma calls_within_window ts :
  forall w c t0,
    counter_entry identifier w = Some {| rval := JNum c; rexp := Some (t0 + window self) |} ->
    within_window (window self) t0 ts ->
    c + Z.of_nat (length ts) <= max_requests self ->
    max_requests self < Redis.int64_max ->
    exists w',
      calls env self identifier ts w = (Return (replicate (length ts) true), w') /\
      counter_entry identifier w' =
        Some {| rval := JNum (c + Z.of_nat (length ts));
                rexp := Some (List.last ts t0 + window self) |}.
Proof.
  induction ts as [|t ts IH]; intros w c t0 He Hw Hc Hmax.
  - exists w. simpl. split; [reflexivity|]. by rewrite Z.add_0_r.
  - destruct Hw as [Ht Hw].
    assert (Hlen : Z.of_nat (length (t :: ts)) = 1 + Z.of_nat (length ts))
      by (simpl length; lia).
    rewrite Hlen in Hc.
    destruct (is_allowed_alive w t c _ ltac:(lia) He) as (w1 & R1 & E1); [lia | lia |].
    destruct (IH w1 (c + 1) t E1 Hw) as (w2 & R2 & E2); [lia | lia |].
    exists w2. split.
    + cbn [calls]. unfold mbind, ST_bind, mret, ST_ret. rewrite R1, R2.
      assert ((c + 1 <=? max_requests self) = true) as -> by lia.
      reflexivity.
    + rewrite E2, Hlen.
      replace (c + 1 + Z.of_nat (length ts)) with (c + (1 + Z.of_nat (length ts))) by lia.
      rewrite last_cons_default.
      reflexivity.
Qed.

(** C6. The decision of the rate limiter is [count <= max_requests] for the
    counter after the increment. From the start of a window, [max_requests]
    calls, each less than a window after the one before, are all allowed and
    the next call is denied; a call more than a window after the last one
    is allowed again. *)
Theorem rate_limiter_window w t0 ts t_next t_late :
  1 <= max_requests self < Redis.int64_max ->
  Redis.lookup t0 (rate_key identifier) (redis w) = None ->
  Z.of_nat (length (t0 :: ts)) = max_requests self ->
  within_window (window self) t0 (ts ++ [t_next]) ->
  t_next + window self < t_late ->
  (forall e v, counter_ok (now e) identifier v ->
     redis_down e (EXEC (limiter_cmds self identifier)) = false ->
     exists n v',
       is_allowed e self identifier v = (Return (n <=? max_requests self), v') /\
       n = count_at (now e) identifier v + 1 /\
       rval <$> counter_entry identifier v' = Some (JNum n)) /\
  exists w1 w2 w3,
    calls env self identifier (t0 :: ts) w =
      (Return (replicate (length (t0 :: ts)) true), w1) /\
    is_allowed (at_time env t_next) self identifier w1 = (Return false, w2) /\
    is_allowed (at_time env t_late) self identifier w2 = (Return true, w3).
Proof.
  intros Hmax Hfresh Hlen Hwin Hlate.
  apply within_window_app in Hwin as [Hwin Hnext].
  assert (Hpos : 0 < window self) by lia.
  split.
  - intros e v Hok Hupe. eexists _, _. rewrite is_allowed_counts by assumption.
    split; [reflexivity|]. split; [reflexivity|].
    by rewrite counted_entry.
  - assert (Hl : Z.of_nat (length (t0 :: ts)) = 1 + Z.of_nat (length ts))
      by (simpl length; lia).
    destruct (is_allowed_fresh w t0 Hpos Hfresh) as (v0 & R0 & E0).
    destruct (calls_within_window ts v0 1 t0 E0 Hwin) as (v1 & R1 & E1); [lia | lia |].
    destruct (is_allowed_alive v1 t_next _ _ Hpos E1) as (v2 & R2 & E2); [lia | lia |].
    destruct (is_allowed_fresh v2 t_late Hpos) as (v3 & R3 & _).
    { eapply lookup_expired; [exact E2 | lia]. }
    exists v1, v2, v3. split; [|split].
    + cbn [calls]. unfold mbind, ST_bind, mret, ST_ret. rewrite R0, R1.
      assert ((1 <=? max_requests self) = true) as -> by lia. reflexivity.
    + rewrite R2. do 2 f_equal. lia.
    + rewrite R3. do 2 f_equal. lia.
Qed.

End Window.

Lemma rate_limiter_window_witness :
  exists w1 w2 w3,
    calls quiet_env two_per_ten "10.0.0.7:curl" [0; 3] empty_world =
      (Return [true; true], w1) /\
    is_allowed (at_time quiet_env 5) two_per_ten "10.0.0.7:curl" w1 = (Return false, w2) /\
    is_allowed (at_time quiet_env 16) two_per_ten "10.0.0.7:curl" w2 = (Return true, w3).
Proof.
  apply (rate_limiter_window quiet_env two_per_ten "10.0.0.7:curl" (fun _ => eq_refl)
           empty_world 0 [3] 5 16).
  - vm_compute. split; [discriminate | reflexivity].
  - reflexivity.
  - reflexivity.
  - simpl. lia.
  - simpl. lia.
Defined.

(** At the end of the window itself the counter is still served: the call
    at second 15 is counted and denied, and moves the end of the window to
    second 25. *)
Lemma is_allowed_at_window_end :
  (calls quiet_env two_per_ten "10.0.0.7:curl" [0; 3; 5; 15; 25; 36] empty_world).1 =
    Return [true; true; false; false; false; true].
Proof. vm_compute. reflexivity. Qed.

(** ** The runs of token verification *)

Lemma SERVICES_auth : SERVICES !! "auth" = Some "http://auth-service:8001".
Proof. reflexivity. Qed.

Lemma verify_token_redis_down env request h w :
  req_headers request !! "authorization" = Some h -> h <> "" ->
  redis_down env (GET (token_key (str_replace h "Bearer " ""))) = true ->
  verify_token env request w =
    (Return JNull, log (EvRedis (GET (token_key (str_replace h "Bearer " "")))) w).
Proof.
  intros Hh Hne Hdown. unfold verify_token. rewrite Hh.
  destruct (String.eqb_spec h ""); [contradiction|].
  unfold try_except, Redis.get, Redis.roundtrip, mbind, ST_bind.
  rewrite Hdown. reflexivity.
Qed.

Lemma verify_token_hit env request h w user :
  req_headers request !! "authorization" = Some h -> h <> "" ->
  redis_down env (GET (token_key (str_replace h "Bearer " ""))) = false ->
  rval <$> Redis.lookup (now env) (token_key (str_replace h "Bearer " "")) (redis w) = Some user ->
  verify_token env request w =
    (Return user, log (EvRedis (GET (token_key (str_replace h "Bearer " "")))) w).
Proof.
  intros Hh Hne Hup Hhit. unfold verify_token. rewrite Hh.
  destruct (String.eqb_spec h ""); [contradiction|].
  unfold try_except, Redis.get, Redis.roundtrip, mbind, ST_bind, get_state, mret, ST_ret.
  rewrite Hup. cbn [redis log]. rewrite Hhit. reflexivity.
Qed.

Lemma verify_token_miss env request h w :
  req_headers request !! "authorization" = Some h -> h <> "" ->
  let t := str_replace h "Bearer " "" in
  let call := verify_call t auth_url in
  redis_down env (GET (token_key t)) = false ->
  Redis.lookup (now env) (token_key t) (redis w) = None ->
  verify_token env request w =
    let w1 := log (EvHttp call) (log (EvRedis (GET (token_key t))) w) in
    match httpx_send env call with
    | Fails _ => (Return JNull, w1)
    | Responds r =>
        if status_code r =? 200 then
          match resp_json r with
          | None => (Return JNull, w1)
          | Some user =>
              let w2 := log (EvRedis (SETEX (token_key t) 600 user)) w1 in
              if redis_down env (SETEX (token_key t) 600 user)
              then (Return JNull, w2)
              else (Return user,
                    set_redis (<[token_key t := {| rval := user; rexp := Some (now env + 600) |}]>
                                 (redis w2)) w2)
          end
        else (Return JNull, w1)
    end.
Proof.
  intros Hh Hne t call Hup Hmiss. unfold verify_token. rewrite Hh.
  destruct (String.eqb_spec h ""); [contradiction|].
  unfold try_except, Redis.get, Redis.roundtrip, mbind, ST_bind, get_state, mret, ST_ret.
  fold t. rewrite Hup. cbn [redis log]. rewrite Hmiss. cbn [fmap option_fmap option_map].
  unfold getitem. rewrite SERVICES_auth. unfold mret, ST_ret, send.
  change (verify_call t "http://auth-service:8001") with call.
  destruct (httpx_send env call) as [r|e]; [|reflexivity].
  destruct (status_code r =? 200); [|reflexivity].
  unfold response_json. destruct (resp_json r) as [user|]; [|reflexivity].
  unfold mret, ST_ret, Redis.setex, Redis.roundtrip, mbind, ST_bind.
  destruct (redis_down env (SETEX (token_key t) 600 user)); reflexivity.
Qed.

(** C2 (as the code has it). When Redis is unreachable, [is_allowed] raises
    and so does the middleware: no decision is made. [verify_token] catches
    the failure of the cache lookup and returns [None] without a call to
    the authentication service, so [get_current_user] answers 401. *)
Theorem cache_failure_propagates env self identifier request h w :
  req_headers request !! "authorization" = Some h ->
  h <> "" ->
  (forall c, redis_down env c = true) ->
  is_allowed env self identifier w =
    (Raise (RedisError "ConnectionError"),
     log (EvRedis (EXEC (limiter_cmds self identifier))) w) /\
  logging_and_rate_limit_middleware env request w =
    (Raise (RedisError "ConnectionError"),
     log (EvRedis (EXEC (limiter_cmds rate_limiter (client_identifier request)))) w) /\
  verify_token env request w =
    (Return JNull, log (EvRedis (GET (token_key (effective_token h)))) w) /\
  get_current_user env request w =
    (Raise (HTTPException 401 "Token inválido o expirado"),
     log (EvRedis (GET (token_key (effective_token h)))) w).
Proof.
  intros Hh Hne Hdown.
  assert (Hlim : forall s i, is_allowed env s i w =
            (Raise (RedisError "ConnectionError"), log (EvRedis (EXEC (limiter_cmds s i))) w)).
  { intros s i. unfold is_allowed, Redis.execute, Redis.roundtrip, mbind, ST_bind.
    fold (limiter_cmds s i). by rewrite Hdown. }
  assert (Hv := verify_token_redis_down env request h w Hh Hne (Hdown _)).
  repeat split.
  - apply Hlim.
  - unfold logging_and_rate_limit_middleware, mbind, ST_bind. by rewrite Hlim.
  - exact Hv.
  - unfold get_current_user, mbind, ST_bind. rewrite Hv. reflexivity.
Qed.

Lemma cache_failure_propagates_witness :
  is_allowed redis_off rate_limiter "10.0.0.7:curl" empty_world =
    (Raise (RedisError "ConnectionError"),
     log (EvRedis (EXEC (limiter_cmds rate_limiter "10.0.0.7:curl"))) empty_world) /\
  verify_token redis_off (bearer_request "Bearer tok") empty_world =
    (Return JNull, log (EvRedis (GET (token_key (effective_token "Bearer tok")))) empty_world).
Proof.
  destruct (cache_failure_propagates redis_off rate_limiter "10.0.0.7:curl"
              (bearer_request "Bearer tok") "Bearer tok" empty_world)
    as (H1 & _ & H3 & _).
  - reflexivity.
  - discriminate.
  - reflexivity.
  - split; [exact H1 | exact H3].
Defined.

(** C2 fails: with Redis unreachable and an authentication service that
    accepts the token, the rate-limit check raises instead of allowing, and
    the verification returns [None] instead of the identity. *)
Lemma cache_failure_not_degraded :
  is_allowed redis_off rate_limiter "10.0.0.7:curl" empty_world =
    (Raise (RedisError "ConnectionError"),
     {| redis := ∅; active_connections := [];
        trace := [EvRedis (EXEC [INCR "rate_limit:10.0.0.7:curl";
                                 EXPIRE "rate_limit:10.0.0.7:curl" 3600])] |}) /\
  httpx_send redis_off (verify_call "tok" auth_url) = Responds accepted /\
  verify_token redis_off (bearer_request "Bearer tok") empty_world =
    (Return JNull,
     {| redis := ∅; active_connections := []; trace := [EvRedis (GET "token:tok")] |}).
Proof. repeat split. Qed.

(** ** Removal of "Bearer " *)

Lemma append_empty_l (s : string) : "" +:+ s = s.
Proof. reflexivity. Qed.

Lemma replace_from_length old k s :
  (String.length (replace_from old "" k s) <= String.length s)%nat.
Proof.
  revert k. induction s as [|c s IH]; intros k; cbn [replace_from String.length]; [lia|].
  destruct k as [|k].
  - destruct (String.prefix old (String c s));
      rewrite ?append_empty_l; cbn [String.length].
    + specialize (IH (String.length old - 1)%nat). lia.
    + specialize (IH 0%nat). lia.
  - specialize (IH k). lia.
Qed.

Lemma replace_from_shorter old s :
  old <> "" -> contains old s = true ->
  (String.length (replace_from old "" 0 s) < String.length s)%nat.
Proof.
  intros Hold. induction s as [|c s IH]; intros Hc.
  - destruct old; [contradiction | discriminate].
  - cbn [contains] in Hc. cbn [replace_from].
    destruct (String.prefix old (String c s)) eqn:P.
    + rewrite append_empty_l. cbn [String.length].
      pose proof (replace_from_length old (String.length old - 1) s). lia.
    + apply IH in Hc. cbn [String.length]. lia.
Qed.

Lemma replace_from_absent old s :
  contains old s = false -> replace_from old "" 0 s = s.
Proof.
  induction s as [|c s IH]; intros Hc; [reflexivity|].
  cbn [contains] in Hc. apply orb_false_iff in Hc as [P Hc].
  cbn [replace_from]. rewrite P. f_equal. by apply IH.
Qed.

Lemma append_cons c (a b : string) : String c a +:+ b = String c (a +:+ b).
Proof. reflexivity. Qed.

Lemma prefix_empty (s : string) : String.prefix "" s = true.
Proof. by destruct s. Qed.

Lemma effective_token_prefix s : effective_token ("Bearer " +:+ s) = effective_token s.
Proof.
  unfold effective_token, str_replace. simpl.
  by rewrite !append_empty_l, prefix_empty.
Qed.

Lemma effective_token_inside a b :
  contains "B" a = false ->
  effective_token (a +:+ "Bearer " +:+ b) = a +:+ effective_token b.
Proof.
  induction a as [|c a IH]; intros Hc.
  - rewrite !append_empty_l. apply effective_token_prefix.
  - cbn [contains] in Hc. apply orb_false_iff in Hc as [P Hc].
    change (String c a +:+ "Bearer " +:+ b) with (String c (a +:+ "Bearer " +:+ b)).
    change (String c a +:+ effective_token b) with (String c (a +:+ effective_token b)).
    unfold effective_token, str_replace in *.
    cbn [replace_from].
    assert (String.prefix "Bearer " (String c (a +:+ "Bearer " +:+ b)) = false) as ->.
    { cbn [String.prefix] in *. destruct (Ascii.ascii_dec "B" c); [|reflexivity].
      by rewrite prefix_empty in P. }
    f_equal. by apply IH.
Qed.

(** ** Token verification *)

(** C10. The token that [verify_token] works with is the Authorization
    header with every occurrence of "Bearer " removed, not only a leading
    one. With [t] this token, the whole run is: the cache is read under
    [token:<t>]; on a miss the authentication service is asked with the
    header [Authorization: Bearer <t>]; an identity that comes back with
    status 200 is stored under [token:<t>]. So a header that contains
    "Bearer " is altered before the lookup and the verification, wherever
    the occurrence is. *)
Theorem verify_token_strips_every_bearer env request h w :
  req_headers request !! "authorization" = Some h ->
  h <> "" ->
  let t := effective_token h in
  let key := "token:" +:+ t in
  let call :=
    {| c_method := "GET";
       c_url := "http://auth-service:8001/verify-token";
       c_headers := {["Authorization" := Some ("Bearer " +:+ t)]};
       c_params := [];
       c_content := None;
       c_timeout := 5 |} in
  let w1 := log (EvRedis (GET key)) w in
  let w2 := log (EvHttp call) w1 in
  verify_token env request w =
    (if redis_down env (GET key) then (Return JNull, w1)
     else
       match Redis.lookup (now env) key (redis w) with
       | Some e => (Return (rval e), w1)
       | None =>
           match httpx_send env call with
           | Fails _ => (Return JNull, w2)
           | Responds r =>
               if status_code r =? 200 then
                 match resp_json r with
                 | None => (Return JNull, w2)
                 | Some user =>
                     let w3 := log (EvRedis (SETEX key 600 user)) w2 in
                     if redis_down env (SETEX key 600 user) then (Return JNull, w3)
                     else
                       (Return user,
                        set_redis
                          (<[key := {| rval := user; rexp := Some (now env + 600) |}]> (redis w))
                          w3)
                 end
               else (Return JNull, w2)
           end
       end) /\
  (contains "Bearer " h = true -> t <> h) /\
  (forall a b, h = a +:+ "Bearer " +:+ b -> contains "B" a = false ->
     t = a +:+ effective_token b).
Proof.
  intros Hh Hne t key call w1 w2. split; [|split].
  - change key with (token_key t).
    change call with (verify_call t auth_url).
    destruct (redis_down env (GET (token_key t))) eqn:Hdown.
    { exact (verify_token_redis_down env request h w Hh Hne Hdown). }
    destruct (Redis.lookup (now env) (token_key t) (redis w)) as [e|] eqn:L.
    { apply (verify_token_hit env request h w (rval e) Hh Hne Hdown).
      fold (effective_token h). fold t. by rewrite L. }
    exact (verify_token_miss env request h w Hh Hne Hdown L).
  - intros Hc Heq. unfold t, effective_token, str_replace in Heq.
    pose proof (replace_from_shorter "Bearer " h ltac:(discriminate) Hc) as Hlt.
    rewrite Heq in Hlt. lia.
  - intros a b -> Ha. by apply effective_token_inside.
Qed.

Lemma verify_token_strips_every_bearer_witness :
  effective_token "Bearer abcBearer def" = "abcdef" /\
  "abcdef" <> "Bearer abcBearer def" /\
  exists w',
    verify_token (auth_env 60 0) (bearer_request "Bearer abcBearer def") empty_world =
      (Return alice, w') /\
    trace w' =
      [EvRedis (GET "token:abcdef");
       EvHttp {| c_method := "GET";
                 c_url := "http://auth-service:8001/verify-token";
                 c_headers := {["Authorization" := Some "Bearer abcdef"]};
                 c_params := [];
                 c_content := None;
                 c_timeout := 5 |};
       EvRedis (SETEX "token:abcdef" 600 alice)] /\
    redis w' !! "token:abcdef" = Some {| rval := alice; rexp := Some 600 |} /\
    redis w' !! "token:Bearer abcBearer def" = None.
Proof.
  destruct (verify_token_strips_every_bearer (auth_env 60 0)
              (bearer_request "Bearer abcBearer def") "Bearer abcBearer def" empty_world)
    as (Hrun & Hneq & _).
  - reflexivity.
  - discriminate.
  - split; [reflexivity|]. split; [exact (Hneq eq_refl)|].
    eexists. split; [exact Hrun|]. repeat split.
Defined.

(** C5 (as the code has it). An identity that [verify_token] stores is
    stored for 600 seconds, whatever the validity that the token has left:
    up to 600 seconds after it was stored a verification returns it from
    the cache without a call to the authentication service, and later than
    that the cache no longer holds it. *)
Theorem verify_token_caches_600 env request h w r user :
  req_headers request !! "authorization" = Some h ->
  h <> "" ->
  (forall c, redis_down env c = false) ->
  Redis.lookup (now env) (token_key (effective_token h)) (redis w) = None ->
  httpx_send env (verify_call (effective_token h) auth_url) = Responds r ->
  status_code r = 200 ->
  resp_json r = Some user ->
  exists w1,
    verify_token env request w = (Return user, w1) /\
    redis w1 !! token_key (effective_token h) =
      Some {| rval := user; rexp := Some (now env + 600) |} /\
    (forall env',
       redis_down env' (GET (token_key (effective_token h))) = false ->
       now env' <= now env + 600 ->
       verify_token env' request w1 =
         (Return user, log (EvRedis (GET (token_key (effective_token h)))) w1)) /\
    (forall t', now env + 600 < t' ->
       Redis.lookup t' (token_key (effective_token h)) (redis w1) = None).
Proof.
  intros Hh Hne Hup Hmiss Hsend H200 Hjson.
  pose proof (verify_token_miss env request h w Hh Hne (Hup _) Hmiss) as Hv.
  cbv zeta in Hv. fold (effective_token h) in Hv.
  rewrite Hsend, H200, Hjson, Hup in Hv. simpl in Hv.
  eexists. split; [exact Hv|].
  assert (Hentry : forall (db : gmap string rentry) (w0 : World),
            redis (set_redis (<[token_key (effective_token h) :=
                       {| rval := user; rexp := Some (now env + 600) |}]> db) w0)
              !! token_key (effective_token h)
            = Some {| rval := user; rexp := Some (now env + 600) |}).
  { intros db w0. simpl. apply lookup_insert_eq. }
  split; [apply Hentry|]. split.
  - intros env' Hup' Hlt.
    apply (verify_token_hit env' request h _ user Hh Hne Hup').
    fold (effective_token h).
    by rewrite (lookup_alive _ _ _ _ _ (Hentry _ _) Hlt).
  - intros t' Hle. exact (lookup_expired _ _ _ _ _ (Hentry _ _) Hle).
Qed.

Lemma verify_token_caches_600_witness :
  exists w1,
    verify_token (auth_env 60 0) (bearer_request "Bearer tok") empty_world
      = (Return alice, w1) /\
    redis w1 !! "token:tok" = Some {| rval := alice; rexp := Some 600 |} /\
    verify_token (auth_env 60 600) (bearer_request "Bearer tok") w1
      = (Return alice, log (EvRedis (GET "token:tok")) w1) /\
    Redis.lookup 601 "token:tok" (redis w1) = None.
Proof.
  destruct (verify_token_caches_600 (auth_env 60 0) (bearer_request "Bearer tok")
              "Bearer tok" empty_world accepted alice)
    as (w1 & H1 & H2 & H3 & H4).
  - reflexivity.
  - discriminate.
  - reflexivity.
  - reflexivity.
  - reflexivity.
  - reflexivity.
  - reflexivity.
  - exists w1. split; [exact H1|]. split; [exact H2|]. split.
    + apply (H3 (auth_env 60 600)); [reflexivity | simpl; lia].
    + apply (H4 601). simpl. lia.
Defined.

(** C5 fails: a token that the authentication service accepts until second
    60 is stored at second 0 until second 600; at second 100 the
    authentication service rejects it and the cache still answers. *)
Lemma cached_past_expiry :
  exists w1,
    verify_token (auth_env 60 0) (bearer_request "Bearer tok") empty_world
      = (Return alice, w1) /\
    redis w1 !! "token:tok" = Some {| rval := alice; rexp := Some 600 |} /\
    httpx_send (auth_env 60 100) (verify_call "tok" auth_url) = Responds rejected /\
    verify_token (auth_env 60 100) (bearer_request "Bearer tok") w1
      = (Return alice, log (EvRedis (GET "token:tok")) w1).
Proof. eexists. repeat split. Qed.

(** ** The proxy *)

(** C7. The three failures of the proxy have three different statuses: an
    unknown service name is 404, a timeout of the backend call is 504, any
    other failure of the transport is 503, each with a message that names
    the service; none of them is a 500. *)
Theorem proxy_failure_statuses env service_name path request request_id w :
  req_state_id request = Some request_id ->
  match SERVICES !! service_name with
  | None =>
      proxy_request env service_name path request w =
        (Raise (HTTPException 404 ("Service " +:+ service_name +:+ " not found")), w)
  | Some service_url =>
      let call := proxy_call service_url path request_id request in
      forall x msg,
        httpx_send env call = Fails (HttpxError x msg) ->
        proxy_request env service_name path request w =
          (Raise (if is_TimeoutException x
                  then HTTPException 504 ("Timeout calling " +:+ service_name)
                  else HTTPException 503 ("Service " +:+ service_name +:+ " unavailable")),
           log (EvHttp call) w)
  end.
Proof.
  intros Hid. unfold proxy_request.
  destruct (SERVICES !! service_name) as [service_url|]; [|reflexivity].
  intros x msg Hsend. rewrite Hid.
  unfold try_except, mbind, ST_bind, send.
  fold (proxy_call service_url path request_id request).
  rewrite Hsend. by destruct (is_TimeoutException x).
Qed.

Lemma proxy_failure_statuses_witness :
  proxy_request (failing_backend ReadTimeout) "billing" "/invoices"
    (set_request_id "3f0c" (bearer_request "Bearer tok")) empty_world =
    (Raise (HTTPException 504 "Timeout calling billing"),
     log (EvHttp (proxy_call "http://billing-service:8005" "/invoices" "3f0c"
                    (set_request_id "3f0c" (bearer_request "Bearer tok")))) empty_world) /\
  proxy_request (failing_backend ConnectError) "billing" "/invoices"
    (set_request_id "3f0c" (bearer_request "Bearer tok")) empty_world =
    (Raise (HTTPException 503 "Service billing unavailable"),
     log (EvHttp (proxy_call "http://billing-service:8005" "/invoices" "3f0c"
                    (set_request_id "3f0c" (bearer_request "Bearer tok")))) empty_world) /\
  proxy_request (failing_backend ConnectError) "payroll" "/invoices"
    (set_request_id "3f0c" (bearer_request "Bearer tok")) empty_world =
    (Raise (HTTPException 404 "Service payroll not found"), empty_world).
Proof.
  split; [|split].
  - apply (proxy_failure_statuses (failing_backend ReadTimeout) "billing" "/invoices"
             (set_request_id "3f0c" (bearer_request "Bearer tok")) "3f0c" empty_world
             eq_refl ReadTimeout "backend call failed" eq_refl).
  - apply (proxy_failure_statuses (failing_backend ConnectError) "billing" "/invoices"
             (set_request_id "3f0c" (bearer_request "Bearer tok")) "3f0c" empty_world
             eq_refl ConnectError "backend call failed" eq_refl).
  - apply (proxy_failure_statuses (failing_backend ConnectError) "payroll" "/invoices"
             (set_request_id "3f0c" (bearer_request "Bearer tok")) "3f0c" empty_world
             eq_refl).
Defined.

(** What the client sees of an [HTTPException]: a response with its status
    and its detail. *)
Lemma call_next_http_exception env request w status detail w' :
  endpoint_response env (route request) request w = (Raise (HTTPException status detail), w') ->
  call_next env request w =
    (Return (JSONResponse (JObj {["detail" := JStr detail]}) status ∅), w').
Proof. intros H. unfold call_next, try_except. by rewrite H. Qed.

(** ** The health check *)

Lemma logs_log evs e w : log e (logs evs w) = logs (evs ++ [e]) w.
Proof. unfold log, logs. simpl. by rewrite app_assoc. Qed.

Lemma logs_nil w : logs [] w = w.
Proof. destruct w. unfold logs. simpl. by rewrite app_nil_r. Qed.

Lemma probe_returns env url w :
  probe env url w = (Return (probe_entry env url), log (EvHttp (health_call url)) w).
Proof.
  unfold probe, probe_entry, try_except, mbind, ST_bind, send.
  by destruct (httpx_send env (health_call url)).
Qed.

Lemma probe_all_returns env items :
  forall acc evs w,
    probe_all env items acc (logs evs w) =
      (Return (probed env items acc),
       logs (evs ++ map (fun item => EvHttp (health_call item.2)) items) w).
Proof.
  induction items as [|[name url] items IH]; intros acc evs w.
  - simpl. by rewrite app_nil_r.
  - cbn [probe_all]. unfold mbind, ST_bind. rewrite probe_returns, logs_log, IH.
    simpl. by rewrite <- app_assoc.
Qed.

Lemma is_healthy_probe_entry env url :
  is_healthy (probe_entry env url) = responds_200 env url.
Proof.
  unfold probe_entry, responds_200.
  destruct (httpx_send env (health_call url)) as [r|e]; [|reflexivity].
  unfold is_healthy. rewrite lookup_insert_eq. by destruct (status_code r =? 200).
Qed.

Lemma all_healthy_insert (m : gmap string json) k v :
  m !! k = None -> all_healthy (<[k := v]> m) = is_healthy v && all_healthy m.
Proof.
  intros Hk. unfold all_healthy.
  destruct (is_healthy v) eqn:Hv; simpl.
  - apply bool_decide_ext. rewrite map_Forall_insert by done.
    split; [by intros [_ ?] | by intros ?].
  - apply bool_decide_eq_false. rewrite map_Forall_insert by done.
    intros [H _]. congruence.
Qed.

Lemma all_healthy_probed env items :
  NoDup items.*1 ->
  forall acc, (forall k, k ∈ items.*1 -> acc !! k = None) ->
    all_healthy (probed env items acc) =
      all_healthy acc && forallb (fun item => responds_200 env item.2) items.
Proof.
  induction items as [|[name url] items IH]; intros Hnd acc Hacc.
  - simpl. by rewrite andb_true_r.
  - apply NoDup_cons in Hnd as [Hname Hnd]. cbn [probed foldl fst snd forallb].
    fold (probed env items (<[name := probe_entry env url]> acc)).
    rewrite IH; [| done |].
    + rewrite all_healthy_insert by (apply Hacc; left).
      rewrite is_healthy_probe_entry. simpl. 
      destruct (responds_200 env url), (all_healthy acc); reflexivity.
    + intros k Hk. rewrite lookup_insert_ne; [apply Hacc; by right|].
      intros ->. contradiction.
Qed.

Lemma probed_lookup env items :
  NoDup items.*1 ->
  forall acc name url, (name, url) ∈ items ->
    probed env items acc !! name = Some (probe_entry env url).
Proof.
  induction items as [|[n u] items IH]; intros Hnd acc name url Hin.
  - by apply elem_of_nil in Hin.
  - apply NoDup_cons in Hnd as [Hn Hnd]. cbn [probed foldl fst snd].
    fold (probed env items (<[n := probe_entry env u]> acc)).
    apply elem_of_cons in Hin as [[= -> ->]|Hin]; [|by apply IH].
    clear IH. revert acc. induction items as [|[n' u'] items IH']; intros acc.
    + simpl. apply lookup_insert_eq.
    + cbn [probed foldl fst snd].
      fold (probed env items (<[n' := probe_entry env u']> (<[n := probe_entry env u]> acc))).
      rewrite insert_insert_ne.
      * apply IH'.
        -- intros H. apply Hn. by right.
        -- by apply NoDup_cons in Hnd as [_ ?].
      * intros ->. apply Hn. by left.
Qed.

Lemma SERVICES_NoDup : NoDup SERVICES_items.*1.
Proof. apply (bool_decide_unpack (NoDup SERVICES_items.*1)). vm_compute. exact I. Qed.

(** [health_check] never raises: it returns its body after one probe per
    backend, in the order of [SERVICES]. *)
Lemma health_check_returns env w :
  health_check env w =
    (Return (health_body env SERVICES_items),
     logs (map (fun item => EvHttp (health_call item.2)) SERVICES_items) w).
Proof.
  unfold health_check, mbind, ST_bind.
  rewrite <- (logs_nil w) at 1. rewrite probe_all_returns.
  unfold mret, ST_ret, health_body. rewrite app_nil_l.
  rewrite all_healthy_probed.
  - reflexivity.
  - exact SERVICES_NoDup.
  - intros k _. apply lookup_empty.
Qed.

(** ** The middleware *)

Lemma middleware_denied env request w w1 :
  is_allowed env rate_limiter (client_identifier request) w = (Return false, w1) ->
  logging_and_rate_limit_middleware env request w = (Return rate_limited_response, w1).
Proof.
  intros H. unfold logging_and_rate_limit_middleware, mbind, ST_bind. by rewrite H.
Qed.

Lemma middleware_allowed env request w w1 :
  is_allowed env rate_limiter (client_identifier request) w = (Return true, w1) ->
  logging_and_rate_limit_middleware env request w =
    match call_next env (set_request_id (uuid4 env) request) w1 with
    | (Return response, w2) =>
        (Return (set_header "X-Process-Time" (process_time env)
                   (set_header "X-Request-ID" (uuid4 env) response)), w2)
    | (Raise e, w2) => (Raise e, w2)
    end.
Proof.
  intros H. unfold logging_and_rate_limit_middleware, mbind, ST_bind. by rewrite H.
Qed.

Lemma set_header_lookup name value r :
  r_headers (set_header name value r) !! lower name = Some value.
Proof. apply lookup_insert_eq. Qed.

(** C4 (as the code has it). A response that the middleware returns for a
    request that the rate limiter allowed carries the headers X-Request-ID
    and X-Process-Time; the response 429 to a request that the rate limiter
    denied carries neither. *)
Theorem middleware_response_headers env request w r w' :
  logging_and_rate_limit_middleware env request w = (Return r, w') ->
  (exists w1,
     is_allowed env rate_limiter (client_identifier request) w = (Return true, w1) /\
     r_headers r !! "x-request-id" = Some (uuid4 env) /\
     r_headers r !! "x-process-time" = Some (process_time env) /\
     has_header "X-Request-ID" r = true /\
     has_header "X-Process-Time" r = true) \/
  (is_allowed env rate_limiter (client_identifier request) w = (Return false, w') /\
   r = rate_limited_response /\
   r_status r = 429 /\
   has_header "X-Request-ID" r = false /\
   has_header "X-Process-Time" r = false).
Proof.
  intros H.
  destruct (is_allowed env rate_limiter (client_identifier request) w) as [[[]|e] w1] eqn:A.
  - left. exists w1. split; [reflexivity|].
    rewrite (middleware_allowed _ _ _ _ A) in H.
    destruct (call_next env (set_request_id (uuid4 env) request) w1) as [[resp|e] w2];
      [|discriminate].
    injection H as <- <-.
    assert (H1 : r_headers (set_header "X-Process-Time" (process_time env)
                   (set_header "X-Request-ID" (uuid4 env) resp)) !! "x-request-id"
                 = Some (uuid4 env)).
    { unfold set_header at 1. cbn [r_headers]. rewrite lookup_insert_ne by done.
      apply (set_header_lookup "X-Request-ID"). }
    pose proof (set_header_lookup "X-Process-Time" (process_time env)
                  (set_header "X-Request-ID" (uuid4 env) resp)) as H2.
    change (lower "X-Process-Time") with "x-process-time" in H2.
    unfold has_header.
    change (lower "X-Request-ID") with "x-request-id".
    change (lower "X-Process-Time") with "x-process-time".
    rewrite H1, H2. repeat split; apply bool_decide_eq_true; by eexists.
  - right. rewrite (middleware_denied _ _ _ _ A) in H. injection H as <- <-.
    repeat split.
  - unfold logging_and_rate_limit_middleware, mbind, ST_bind in H. rewrite A in H.
    discriminate.
Qed.

Lemma middleware_response_headers_witness :
  has_header "X-Request-ID" unauthorized_response = true /\
  has_header "X-Process-Time" unauthorized_response = true.
Proof.
  assert (E : logging_and_rate_limit_middleware quiet_env (bearer_request "Bearer tok")
                empty_world =
              (Return unauthorized_response,
               (logging_and_rate_limit_middleware quiet_env (bearer_request "Bearer tok")
                  empty_world).2))
    by (vm_compute; reflexivity).
  destruct (middleware_response_headers quiet_env (bearer_request "Bearer tok") empty_world
              unauthorized_response _ E)
    as [(w1 & _ & _ & _ & H1 & H2) | (_ & _ & H & _)].
  - split; [exact H1 | exact H2].
  - discriminate H.
Defined.

(** C4 fails: the hundred-and-first request of a client within the window
    is answered 429, without the two headers. *)
Lemma rate_limited_without_headers :
  exists w',
    logging_and_rate_limit_middleware quiet_env (bearer_request "Bearer tok") saturated =
      (Return rate_limited_response, w') /\
    r_status rate_limited_response = 429 /\
    has_header "X-Request-ID" rate_limited_response = false /\
    has_header "X-Process-Time" rate_limited_response = false.
Proof. eexists. split; [vm_compute; reflexivity | repeat split]. Qed.

Lemma call_next_health env request w :
  route request = health_route ->
  call_next env request w =
    (Return (ok_response (health_body env SERVICES_items)),
     logs (map (fun item => EvHttp (health_call item.2)) SERVICES_items) w).
Proof.
  intros Hr. unfold call_next, try_except. rewrite Hr.
  unfold endpoint_response, mbind, ST_bind.
  by rewrite health_check_returns.
Qed.

Lemma route_set_request_id request_id request :
  route (set_request_id request_id request) = route request.
Proof. reflexivity. Qed.

(** C8 (as the code has it). A request for [GET /health] goes through the
    rate limiter like every request: its counter is incremented, and a
    denied request is answered 429 without any probe. When it is allowed,
    no token is verified and nothing is proxied: the only calls are the
    probes [GET <url>/health], one per configured backend, with a timeout of
    5 seconds. The status is healthy exactly when every probe is answered
    with status 200, degraded otherwise, and every backend has its entry. *)
Theorem health_route_is_rate_limited env request w :
  route request = health_route ->
  redis_down env (EXEC (limiter_cmds rate_limiter (client_identifier request))) = false ->
  counter_ok (now env) (client_identifier request) w ->
  let identifier := client_identifier request in
  let n := count_at (now env) identifier w + 1 in
  let w1 := counted identifier n (now env + 3600)
              (log (EvRedis (EXEC (limiter_cmds rate_limiter identifier))) w) in
  (if n <=? 100
   then
     logging_and_rate_limit_middleware env request w =
       (Return (set_header "X-Process-Time" (process_time env)
                  (set_header "X-Request-ID" (uuid4 env)
                     (ok_response (health_body env SERVICES_items)))),
        logs (map (fun item => EvHttp (health_call item.2)) SERVICES_items) w1)
   else
     logging_and_rate_limit_middleware env request w = (Return rate_limited_response, w1)) /\
  (forall name url, SERVICES !! name = Some url ->
     c_timeout (health_call url) = 5 /\
     probed env SERVICES_items ∅ !! name = Some (probe_entry env url) /\
     (is_healthy (probe_entry env url) = true <->
      exists r, httpx_send env (health_call url) = Responds r /\ status_code r = 200)) /\
  (forallb (fun item => responds_200 env item.2) SERVICES_items = true <->
   forall name url, SERVICES !! name = Some url ->
     exists r, httpx_send env (health_call url) = Responds r /\ status_code r = 200).
Proof.
  intros Hr Hup Hok identifier n w1.
  assert (H200 : forall url, responds_200 env url = true <->
            exists r, httpx_send env (health_call url) = Responds r /\ status_code r = 200).
  { intros url. unfold responds_200.
    destruct (httpx_send env (health_call url)) as [r|e].
    - split; [intros H; exists r; split; [done | lia]|].
      intros (r' & [= <-] & H). lia.
    - split; [discriminate | by intros (r' & ? & _)]. }
  assert (Hin : forall name url, SERVICES !! name = Some url <-> (name, url) ∈ SERVICES_items).
  { intros name url. unfold SERVICES. symmetry.
    apply elem_of_list_to_map. exact SERVICES_NoDup. }
  split; [|split].
  - pose proof (is_allowed_counts env rate_limiter identifier w eq_refl Hup Hok) as A.
    fold n in A. change (window rate_limiter) with 3600 in A.
    change (max_requests rate_limiter) with 100 in A. fold w1 in A.
    destruct (n <=? 100).
    + rewrite (middleware_allowed _ _ _ _ A), call_next_health; [reflexivity|].
      by rewrite route_set_request_id.
    + by rewrite (middleware_denied _ _ _ _ A).
  - intros name url Hs. split; [reflexivity|]. split.
    + apply probed_lookup; [exact SERVICES_NoDup | by apply Hin].
    + rewrite is_healthy_probe_entry. apply H200.
  - rewrite forallb_forall. split.
    + intros H name url Hs. apply H200.
      apply (H (name, url)). apply list_elem_of_In. by apply Hin.
    + intros H [name url] Hi. apply H200. apply (H name).
      apply Hin. by apply list_elem_of_In.
Qed.

Lemma health_route_is_rate_limited_witness :
  logging_and_rate_limit_middleware quiet_env health_request empty_world =
    (Return (set_header "X-Process-Time" "0.01"
               (set_header "X-Request-ID" "3f0c"
                  (ok_response (health_body quiet_env SERVICES_items)))),
     logs (map (fun item => EvHttp (health_call item.2)) SERVICES_items)
       (counted "10.0.0.7:curl" 1 3600
          (log (EvRedis (EXEC (limiter_cmds rate_limiter "10.0.0.7:curl"))) empty_world))).
Proof.
  destruct (health_route_is_rate_limited quiet_env health_request empty_world)
    as (H & _).
  - reflexivity.
  - reflexivity.
  - exact I.
  - exact H.
Defined.

(** C8 fails: a request for [GET /health] runs the rate limiter first, and
    the hundred-and-first request of a client within the window is answered
    429 without a probe of any backend. *)
Lemma health_check_is_rate_limited :
  route health_request = health_route /\
  head (trace (logging_and_rate_limit_middleware quiet_env health_request empty_world).2) =
    Some (EvRedis (EXEC [INCR "rate_limit:10.0.0.7:curl";
                         EXPIRE "rate_limit:10.0.0.7:curl" 3600])) /\
  exists w',
    logging_and_rate_limit_middleware quiet_env health_request saturated =
      (Return rate_limited_response, w') /\
    trace w' = trace saturated ++
                 [EvRedis (EXEC [INCR "rate_limit:10.0.0.7:curl";
                                 EXPIRE "rate_limit:10.0.0.7:curl" 3600])].
Proof.
  split; [reflexivity|]. split; [vm_compute; reflexivity|].
  eexists. split; vm_compute; reflexivity.
Qed.

(** ** The connection manager *)

Lemma list_remove_absent ws (l : list conn) : ws ∉ l -> list_remove ws l = None.
Proof.
  induction l as [|y l IH]; intros H; [reflexivity|].
  apply not_elem_of_cons in H as [Hne H]. simpl.
  destruct (decide (ws = y)); [contradiction|]. by rewrite IH.
Qed.

Lemma list_remove_first ws (l1 l2 : list conn) :
  ws ∉ l1 -> list_remove ws (l1 ++ ws :: l2) = Some (l1 ++ l2).
Proof.
  induction l1 as [|y l1 IH]; intros H; simpl.
  - by destruct (decide (ws = ws)).
  - apply not_elem_of_cons in H as [Hne H].
    destruct (decide (ws = y)); [contradiction|]. by rewrite IH.
Qed.

Lemma remove_connection_absent ws w :
  ws ∉ active_connections w -> remove_connection ws w = (Raise not_in_list, w).
Proof.
  intros H. unfold remove_connection, mbind, ST_bind, get_state.
  by rewrite list_remove_absent.
Qed.

Lemma remove_connection_first ws w l1 l2 :
  active_connections w = l1 ++ ws :: l2 -> ws ∉ l1 ->
  remove_connection ws w = (Return tt, set_connections (l1 ++ l2) w).
Proof.
  intros E H. unfold remove_connection, mbind, ST_bind, get_state.
  by rewrite E, list_remove_first.
Qed.

(** C9 (as the code has it). [disconnect] removes the first occurrence of a
    connection that is in the list. For a connection that is not in the
    list it raises [ValueError] and leaves the list as it is; so the second
    of two disconnects of a connection that was in the list once raises. *)
Theorem disconnect_absent_raises ws w :
  (ws ∉ active_connections w -> disconnect ws w = (Raise not_in_list, w)) /\
  (forall l1 l2, active_connections w = l1 ++ ws :: l2 -> ws ∉ l1 ->
     disconnect ws w = (Return tt, set_connections (l1 ++ l2) w) /\
     (ws ∉ l2 ->
      disconnect ws (set_connections (l1 ++ l2) w) =
        (Raise not_in_list, set_connections (l1 ++ l2) w))).
Proof.
  split.
  - apply remove_connection_absent.
  - intros l1 l2 E H1. split.
    + by apply remove_connection_first.
    + intros H2. apply remove_connection_absent. simpl.
      rewrite elem_of_app. tauto.
Qed.

Lemma disconnect_absent_raises_witness :
  disconnect 2%nat (connected [1; 2; 3]%nat) = (Return tt, connected [1; 3]%nat) /\
  disconnect 2%nat (connected [1; 3]%nat) = (Raise not_in_list, connected [1; 3]%nat).
Proof.
  destruct (disconnect_absent_raises 2%nat (connected [1; 2; 3]%nat)) as [_ H].
  destruct (H [1%nat] [3%nat] eq_refl) as [H1 H2].
  - apply (bool_decide_unpack (2%nat ∉ [1%nat])). vm_compute. exact I.
  - split; [exact H1|]. apply H2.
    apply (bool_decide_unpack (2%nat ∉ [3%nat])). vm_compute. exact I.
Defined.

(** C9 fails: the disconnect of a connection that is not in the list
    raises, and a second disconnect is not a disconnect done once. *)
Lemma disconnect_not_idempotent :
  disconnect 2%nat (connected [1; 3]%nat) = (Raise not_in_list, connected [1; 3]%nat) /\
  (w ← disconnect 2%nat; disconnect 2%nat) (connected [1; 2; 3]%nat)
    <> disconnect 2%nat (connected [1; 2; 3]%nat).
Proof. split; [reflexivity | discriminate]. Qed.

(** *** Broadcast *)

Lemma list_remove_length ws (l l' : list conn) :
  list_remove ws l = Some l' -> length l = S (length l').
Proof.
  revert l'. induction l as [|y l IH]; intros l'; simpl; [discriminate|].
  destruct (decide (ws = y)); [by intros [= ->]|].
  destruct (list_remove ws l) as [l0|]; [|discriminate].
  intros [= <-]. simpl. by rewrite (IH l0).
Qed.

(** One iteration of the loop leaves a list that is not longer. *)
Lemma broadcast_step_length env connection message w r w' :
  try_except (send_text env connection message) (fun _ => remove_connection connection) w
    = (r, w') ->
  (length (active_connections w') <= length (active_connections w))%nat.
Proof.
  unfold try_except, send_text, remove_connection, mbind, ST_bind, get_state.
  destruct (send_fails env connection message).
  - destruct (list_remove connection (active_connections w)) as [l|] eqn:R.
    + intros [= _ <-]. simpl. apply list_remove_length in R. lia.
    + by intros [= _ <-].
  - by intros [= _ <-].
Qed.

(** The length of the list at the start is fuel enough: more fuel gives the
    same result. *)
Lemma broadcast_from_fuel env message fuel :
  forall i w, (length (active_connections w) <= i + fuel)%nat ->
    broadcast_from env (S fuel) i message w = broadcast_from env fuel i message w.
Proof.
  induction fuel as [|fuel IH]; intros i w Hlen.
  - cbn [broadcast_from]. unfold mbind, ST_bind, get_state.
    rewrite lookup_ge_None_2 by lia. reflexivity.
  - change (broadcast_from env (S (S fuel)) i message w) with
      ((w0 ← get_state;
        match active_connections w0 !! i with
        | None => mret tt
        | Some connection =>
            _ ← try_except (send_text env connection message)
                  (fun _ => remove_connection connection);
            broadcast_from env (S fuel) (S i) message
        end) w).
    change (broadcast_from env (S fuel) i message w) with
      ((w0 ← get_state;
        match active_connections w0 !! i with
        | None => mret tt
        | Some connection =>
            _ ← try_except (send_text env connection message)
                  (fun _ => remove_connection connection);
            broadcast_from env fuel (S i) message
        end) w).
    unfold mbind, ST_bind, get_state.
    destruct (active_connections w !! i) as [connection|]; [|reflexivity].
    destruct (try_except (send_text env connection message)
                (fun _ => remove_connection connection) w) as [[[]|e] w'] eqn:S;
      [|reflexivity].
    apply broadcast_step_length in S. apply IH. lia.
Qed.

Lemma broadcast_from_more_fuel env message i w fuel extra :
  (length (active_connections w) <= i + fuel)%nat ->
  broadcast_from env (fuel + extra) i message w = broadcast_from env fuel i message w.
Proof.
  intros H. induction extra as [|extra IH].
  - by rewrite Nat.add_0_r.
  - rewrite Nat.add_succ_r, broadcast_from_fuel by lia. exact IH.
Qed.

(** From an index after which every write succeeds, the loop delivers to the
    rest of the list and leaves the list as it is. *)
Lemma broadcast_from_delivers env message fuel :
  forall i w,
    (length (active_connections w) <= i + fuel)%nat ->
    (forall c, c ∈ drop i (active_connections w) -> send_fails env c message = false) ->
    broadcast_from env fuel i message w =
      (Return tt,
       logs (map (fun c => EvDelivered c message) (drop i (active_connections w))) w).
Proof.
  induction fuel as [|fuel IH]; intros i w Hlen Hok.
  - simpl. rewrite drop_ge by lia. by rewrite logs_nil.
  - cbn [broadcast_from]. unfold mbind, ST_bind, get_state.
    destruct (active_connections w !! i) as [c|] eqn:L.
    + rewrite (drop_S _ _ _ L) in *.
      unfold try_except, send_text. rewrite (Hok c) by left.
      rewrite IH.
      * simpl. unfold logs, log. simpl. by rewrite <- app_assoc.
      * simpl. lia.
      * intros c' Hc'. apply Hok. by right.
    + apply lookup_ge_None_1 in L. rewrite drop_ge by lia. by rewrite logs_nil.
Qed.

Lemma logs_cons e evs w : logs evs (log e w) = logs (e :: evs) w.
Proof. unfold logs, log. simpl. by rewrite <- app_assoc. Qed.

(** The loop over a stretch of the list whose writes succeed. *)
Lemma broadcast_from_prefix env message fuel k l2 :
  forall l1' pre w,
    active_connections w = (pre ++ l1') ++ k :: l2 ->
    (forall c, c ∈ l1' -> send_fails env c message = false) ->
    broadcast_from env (length l1' + fuel) (length pre) message w =
      broadcast_from env fuel (length (pre ++ l1')) message
        (logs (map (fun c => EvDelivered c message) l1') w).
Proof.
  induction l1' as [|c l1' IH]; intros pre w E Hok.
  - simpl. by rewrite app_nil_r, logs_nil.
  - cbn [length Nat.add broadcast_from]. unfold mbind, ST_bind, get_state.
    assert (L : active_connections w !! length pre = Some c).
    { rewrite E, <- app_assoc. rewrite lookup_app_r by lia.
      by rewrite Nat.sub_diag. }
    rewrite L. unfold try_except, send_text. rewrite (Hok c) by left.
    specialize (IH (pre ++ [c]) (log (EvDelivered c message) w)).
    rewrite length_app in IH. simpl in IH. rewrite Nat.add_1_r in IH.
    rewrite IH.
    + rewrite <- app_assoc. simpl. by rewrite logs_cons.
    + simpl. by rewrite E, <- !app_assoc.
    + intros c' Hc'. apply Hok. by right.
Qed.

(** What [broadcast] does when exactly the writes to one connection [k]
    fail: [k] leaves the list, and the message reaches every connection
    except [k] and the connection that follows [k] in the list, which moves
    into the place of [k] and is passed over. *)
Lemma broadcast_one_failure env message l1 k l2 w :
  active_connections w = l1 ++ k :: l2 ->
  k ∉ l1 -> k ∉ l2 ->
  (forall c, send_fails env c message = bool_decide (c = k)) ->
  broadcast env message w =
    (Return tt,
     set_connections (l1 ++ l2)
       (logs (map (fun c => EvDelivered c message) (l1 ++ tail l2)) w)).
Proof.
  intros E H1 H2 Hf. unfold broadcast, mbind, ST_bind, get_state.
  assert (Hother : forall l : list conn, k ∉ l ->
            forall c, c ∈ l -> send_fails env c message = false).
  { intros l Hl c Hc. rewrite Hf. apply bool_decide_eq_false. by intros ->. }
  rewrite E, length_app. cbn [length].
  pose proof (broadcast_from_prefix env message (S (length l2)) k l2 l1 [] w E (Hother l1 H1))
    as P.
  simpl in P. rewrite P. clear P.
  set (w1 := logs (map (fun c => EvDelivered c message) l1) w).
  cbn [broadcast_from]. unfold mbind, ST_bind, get_state.
  assert (E1 : active_connections w1 = l1 ++ k :: l2) by exact E.
  rewrite E1, lookup_app_r, Nat.sub_diag by lia. cbn [lookup list_lookup].
  unfold try_except, send_text. rewrite Hf, bool_decide_eq_true_2 by done.
  rewrite (remove_connection_first k w1 l1 l2 E1 H1).
  assert (D : drop (S (length l1)) (l1 ++ l2) = tail l2).
  { rewrite drop_app_ge by lia.
    replace (S (length l1) - length l1)%nat with 1%nat by lia. by destruct l2. }
  rewrite broadcast_from_delivers; cbn [active_connections set_connections].
  - rewrite D. unfold logs, set_connections, w1. simpl.
    by rewrite map_app, app_assoc.
  - rewrite length_app. lia.
  - rewrite D. intros c Hc. apply (Hother l2 H2).
    destruct l2; [by apply elem_of_nil in Hc | by right].
Qed.

(** C3 fails in the code: with three live connections of which the first
    is closed, [broadcast] drops the closed one and delivers to the third
    only; the second is passed over. *)
Theorem broadcast_skips_next_peer :
  broadcast (peer_gone 0%nat) "appointment at 10:00" (connected [0; 1; 2]%nat) =
    (Return tt,
     {| redis := ∅; active_connections := [1; 2]%nat;
        trace := [EvDelivered 2%nat "appointment at 10:00"] |}).
Proof. reflexivity. Qed.

(** ** The dashboard summary *)

Lemma fetch_into_run env request service path field base summary w :
  SERVICES !! service = Some base ->
  let call := dashboard_call (base +:+ path) (req_headers request !! "authorization") in
  fetch_into env request service path field (summary, w) =
    match httpx_send env call with
    | Fails e => (Raise e, (summary, log (EvHttp call) w))
    | Responds r =>
        if status_code r =? 200
        then match resp_json r with
             | Some data => (Return tt, (<[field := data]> summary, log (EvHttp call) w))
             | None => (Raise (ValueError "JSONDecodeError"), (summary, log (EvHttp call) w))
             end
        else (Return tt, (summary, log (EvHttp call) w))
    end.
Proof.
  intros Hs call. unfold fetch_into, mbind, ST_bind, lift, getitem. rewrite Hs.
  unfold mret, ST_ret, send. fold call.
  destruct (httpx_send env call) as [r|e]; [|reflexivity].
  destruct (status_code r =? 200); [|reflexivity].
  unfold response_json. by destruct (resp_json r).
Qed.

(** The summary is always returned: no failure of a backend call makes the
    endpoint fail. *)
Lemma dashboard_summary_returns env request w :
  exists summary w', dashboard_summary env request w = (Return (JObj summary), w').
Proof.
  unfold dashboard_summary.
  match goal with
  | |- context [try_except ?b ?h ?s] => destruct (try_except b h s) as [o [summary w']]
  end.
  by exists summary, w'.
Qed.

(** When the first call raises, the two other calls are not made and the
    summary holds the error note only. *)
Lemma dashboard_first_call_raises env request w e :
  httpx_send env (appointments_call request) = Fails e ->
  dashboard_summary env request w =
    (Return (JObj {["error" := error_note]}), log (EvHttp (appointments_call request)) w).
Proof.
  intros H. unfold dashboard_summary, try_except, mbind, ST_bind.
  rewrite (fetch_into_run env request "appointments" "/today" _
             "http://appointments-service:8003") by reflexivity.
  cbv zeta. change (dashboard_call _ _) with (appointments_call request).
  rewrite H. reflexivity.
Qed.

(** When the first two calls are answered 200 and the last call raises, the
    summary holds the two fields and the error note. *)
Lemma dashboard_last_call_raises env request w r1 r2 j1 j2 e :
  httpx_send env (appointments_call request) = Responds r1 ->
  status_code r1 = 200 -> resp_json r1 = Some j1 ->
  httpx_send env (billing_call request) = Responds r2 ->
  status_code r2 = 200 -> resp_json r2 = Some j2 ->
  httpx_send env (notifications_call request) = Fails e ->
  dashboard_summary env request w =
    (Return (JObj (<["error" := error_note]>
                  (<["pending_invoices" := j2]> {["todays_appointments" := j1]}))),
     logs [EvHttp (appointments_call request); EvHttp (billing_call request);
           EvHttp (notifications_call request)] w).
Proof.
  intros H1 S1 J1 H2 S2 J2 H3. unfold dashboard_summary, try_except, mbind, ST_bind.
  rewrite (fetch_into_run env request "appointments" "/today" _
             "http://appointments-service:8003") by reflexivity.
  cbv zeta. change (dashboard_call _ _) with (appointments_call request).
  rewrite H1, S1, J1. cbn [Z.eqb Pos.eqb].
  rewrite (fetch_into_run env request "billing" "/pending" _
             "http://billing-service:8005") by reflexivity.
  cbv zeta. change (dashboard_call _ _) with (billing_call request).
  rewrite H2, S2, J2. cbn [Z.eqb Pos.eqb].
  rewrite (fetch_into_run env request "notifications" "/pending" _
             "http://notifications-service:8006") by reflexivity.
  cbv zeta. change (dashboard_call _ _) with (notifications_call request).
  rewrite H3. unfold set_local, logs, log. simpl. by rewrite <- !app_assoc.
Qed.

(** A call that is answered with a status other than 200 leaves its field
    out and adds no error note. *)
Lemma dashboard_first_call_not_200 env request w r1 r2 r3 j2 j3 :
  httpx_send env (appointments_call request) = Responds r1 ->
  status_code r1 <> 200 ->
  httpx_send env (billing_call request) = Responds r2 ->
  status_code r2 = 200 -> resp_json r2 = Some j2 ->
  httpx_send env (notifications_call request) = Responds r3 ->
  status_code r3 = 200 -> resp_json r3 = Some j3 ->
  dashboard_summary env request w =
    (Return (JObj (<["pending_notifications" := j3]> {["pending_invoices" := j2]})),
     logs [EvHttp (appointments_call request); EvHttp (billing_call request);
           EvHttp (notifications_call request)] w).
Proof.
  intros H1 S1 H2 S2 J2 H3 S3 J3. unfold dashboard_summary, try_except, mbind, ST_bind.
  rewrite (fetch_into_run env request "appointments" "/today" _
             "http://appointments-service:8003") by reflexivity.
  cbv zeta. change (dashboard_call _ _) with (appointments_call request).
  rewrite H1. destruct (Z.eqb_spec (status_code r1) 200) as [|_]; [contradiction|].
  rewrite (fetch_into_run env request "billing" "/pending" _
             "http://billing-service:8005") by reflexivity.
  cbv zeta. change (dashboard_call _ _) with (billing_call request).
  rewrite H2, S2, J2. cbn [Z.eqb Pos.eqb].
  rewrite (fetch_into_run env request "notifications" "/pending" _
             "http://notifications-service:8006") by reflexivity.
  cbv zeta. change (dashboard_call _ _) with (notifications_call request).
  rewrite H3, S3, J3. cbn [Z.eqb Pos.eqb].
  unfold logs, log. simpl. by rewrite <- !app_assoc.
Qed.

(** C1 fails in the code: the appointments service refuses the connection,
    the billing and notifications services would answer 200; the summary
    holds the error note and neither of the two other fields, because the
    two other calls are never made. *)
Theorem dashboard_first_failure_hides_the_rest :
  dashboard_summary appointments_down (bearer_request "Bearer tok") empty_world =
    (Return (JObj {["error" := error_note]}),
     {| redis := ∅; active_connections := [];
        trace := [EvHttp (appointments_call (bearer_request "Bearer tok"))] |}) /\
  httpx_send appointments_down (billing_call (bearer_request "Bearer tok")) =
    Responds (listing (JArr [])) /\
  httpx_send appointments_down (notifications_call (bearer_request "Bearer tok")) =
    Responds (listing (JArr [])).
Proof. repeat split. Qed.

(** * Further properties *)

(** ** Token verification *)

Lemma verify_token_no_header env request w :
  req_headers request !! "authorization" = None \/
  req_headers request !! "authorization" = Some "" ->
  verify_token env request w = (Return JNull, w).
Proof. intros [H|H]; unfold verify_token; by rewrite H. Qed.

Lemma header_cases (request : Request) :
  (req_headers request !! "authorization" = None \/
   req_headers request !! "authorization" = Some "") \/
  exists h, req_headers request !! "authorization" = Some h /\ h <> "".
Proof.
  destruct (req_headers request !! "authorization") as [h|]; [|by left; left].
  destruct (String.eqb_spec h ""); [subst; by left; right|].
  right. by exists h.
Qed.

(** [verify_token] cannot raise: whatever Redis and the authentication
    service do, it returns an identity or [None]. *)
Lemma verify_token_returns env request w :
  exists user w', verify_token env request w = (Return user, w').
Proof.
  destruct (header_cases request) as [H|(h & Hh & Hne)].
  { rewrite verify_token_no_header by done. by eexists _, _. }
  destruct (redis_down env (GET (token_key (effective_token h)))) eqn:Hdown.
  { rewrite (verify_token_redis_down env request h w Hh Hne Hdown). by eexists _, _. }
  destruct (Redis.lookup (now env) (token_key (effective_token h)) (redis w)) as [e|] eqn:L.
  { rewrite (verify_token_hit env request h w (rval e) Hh Hne Hdown)
      by (fold (effective_token h); by rewrite L).
    by eexists _, _. }
  rewrite (verify_token_miss env request h w Hh Hne Hdown L). cbv zeta.
  destruct (httpx_send env _) as [r|e]; [|by eexists _, _].
  destruct (status_code r =? 200); [|by eexists _, _].
  destruct (resp_json r) as [user|]; [|by eexists _, _].
  destruct (redis_down env (SETEX _ _ _)); by eexists _, _.
Qed.

(** X1. The authentication dependency has two outcomes only: an identity
    that Python takes for true, or the error 401. No failure of Redis or of
    the authentication service comes out of it as another exception. *)
Theorem get_current_user_outcomes env request w :
  (exists user w', get_current_user env request w = (Return user, w') /\ truthy user = true) \/
  (exists w', get_current_user env request w =
                (Raise (HTTPException 401 "Token inválido o expirado"), w')).
Proof.
  destruct (verify_token_returns env request w) as (user & w' & H).
  unfold get_current_user, mbind, ST_bind. rewrite H.
  destruct (truthy user) eqn:T.
  - left. by exists user, w'.
  - right. by exists w'.
Qed.

(** X2. A token whose identity is in the cache and has not expired is
    answered from the cache: the identity is returned, the authentication
    service is not called, and the cache is left as it is. *)
Theorem verify_token_cache_hit env request h w user deadline :
  req_headers request !! "authorization" = Some h ->
  h <> "" ->
  redis_down env (GET (token_key (effective_token h))) = false ->
  redis w !! token_key (effective_token h) = Some {| rval := user; rexp := Some deadline |} ->
  now env < deadline ->
  exists w',
    verify_token env request w = (Return user, w') /\
    trace w' = trace w ++ [EvRedis (GET (token_key (effective_token h)))] /\
    redis w' = redis w.
Proof.
  intros Hh Hne Hup He Hlt.
  exists (log (EvRedis (GET (token_key (effective_token h)))) w).
  split; [|split; reflexivity].
  apply (verify_token_hit env request h w user Hh Hne Hup).
  fold (effective_token h). by rewrite (lookup_alive _ _ _ _ _ He (Z.lt_le_incl _ _ Hlt)).
Qed.

Lemma verify_token_cache_hit_witness :
  exists w',
    verify_token (at_time quiet_env 599) (bearer_request "Bearer tok") alice_cached =
      (Return alice, w') /\
    trace w' = trace alice_cached ++ [EvRedis (GET "token:tok")] /\
    redis w' = redis alice_cached.
Proof.
  apply (verify_token_cache_hit (at_time quiet_env 599) (bearer_request "Bearer tok")
           "Bearer tok" alice_cached alice 600).
  - reflexivity.
  - discriminate.
  - reflexivity.
  - vm_compute. reflexivity.
  - reflexivity.
Defined.

(** X3. A verification that the authentication service does not confirm
    leaves no trace in the cache: when the call fails, or is answered with a
    status other than 200, the result is [None] and the cache is unchanged. *)
Theorem verify_token_failure_not_cached env request h w :
  req_headers request !! "authorization" = Some h ->
  h <> "" ->
  Redis.lookup (now env) (token_key (effective_token h)) (redis w) = None ->
  match httpx_send env (verify_call (effective_token h) auth_url) with
  | Responds r => status_code r <> 200
  | Fails _ => True
  end ->
  exists w', verify_token env request w = (Return JNull, w') /\ redis w' = redis w.
Proof.
  intros Hh Hne Hmiss Hfail.
  destruct (redis_down env (GET (token_key (effective_token h)))) eqn:Hdown.
  { rewrite (verify_token_redis_down env request h w Hh Hne Hdown). by eexists. }
  rewrite (verify_token_miss env request h w Hh Hne Hdown Hmiss). cbv zeta.
  fold (effective_token h).
  destruct (httpx_send env (verify_call (effective_token h) auth_url)) as [r|e];
    [|by eexists].
  destruct (Z.eqb_spec (status_code r) 200); [contradiction|]. by eexists.
Qed.

Lemma verify_token_failure_not_cached_witness :
  exists w',
    verify_token (auth_env 60 100) (bearer_request "Bearer tok") empty_world =
      (Return JNull, w') /\
    redis w' = redis empty_world.
Proof.
  apply (verify_token_failure_not_cached (auth_env 60 100) (bearer_request "Bearer tok")
           "Bearer tok" empty_world).
  - reflexivity.
  - discriminate.
  - reflexivity.
  - vm_compute. discriminate.
Defined.

(** X4. Every identity that [verify_token] returns is in the cache when it
    returns: it was read from the cache, or it was written to it. An
    identity that could not be written (Redis failed after the
    authentication service had accepted the token) is not returned. *)
Theorem verify_token_accepts_only_cached env request w user w' :
  verify_token env request w = (Return user, w') ->
  user <> JNull ->
  exists h,
    req_headers request !! "authorization" = Some h /\
    rval <$> Redis.lookup (now env) (token_key (effective_token h)) (redis w') = Some user.
Proof.
  intros H Hu.
  destruct (header_cases request) as [Hn|(h & Hh & Hne)].
  { rewrite verify_token_no_header in H by done. by injection H as <- _. }
  exists h. split; [exact Hh|].
  destruct (redis_down env (GET (token_key (effective_token h)))) eqn:Hdown.
  { rewrite (verify_token_redis_down env request h w Hh Hne Hdown) in H.
    by injection H as <- _. }
  destruct (Redis.lookup (now env) (token_key (effective_token h)) (redis w)) as [e|] eqn:L.
  { rewrite (verify_token_hit env request h w (rval e) Hh Hne Hdown) in H
      by (fold (effective_token h); by rewrite L).
    injection H as <- <-. simpl. by rewrite L. }
  rewrite (verify_token_miss env request h w Hh Hne Hdown L) in H. cbv zeta in H.
  fold (effective_token h) in H.
  destruct (httpx_send env (verify_call (effective_token h) auth_url)) as [r|e];
    [|by injection H as <- _].
  destruct (status_code r =? 200); [|by injection H as <- _].
  destruct (resp_json r) as [u|]; [|by injection H as <- _].
  destruct (redis_down env (SETEX _ _ _)); [by injection H as <- _|].
  injection H as <- <-. cbn [redis set_redis].
  rewrite lookup_insert_live; [reflexivity|].
  unfold Redis.expired. simpl. lia.
Qed.

Lemma verify_token_accepts_only_cached_witness :
  exists h,
    req_headers (bearer_request "Bearer tok") !! "authorization" = Some h /\
    rval <$> Redis.lookup 0 (token_key (effective_token h)) (redis alice_cached) = Some alice.
Proof.
  apply (verify_token_accepts_only_cached (auth_env 60 0) (bearer_request "Bearer tok")
           empty_world alice alice_cached).
  - vm_compute. reflexivity.
  - discriminate.
Defined.

(** X5. The prefix "Bearer " is optional: two Authorization headers with
    the same token once "Bearer " is removed are verified in the same way,
    so the bare token is accepted wherever [Bearer <token>] is. *)
Theorem verify_token_bearer_optional env r1 r2 h1 h2 w :
  req_headers r1 !! "authorization" = Some h1 ->
  req_headers r2 !! "authorization" = Some h2 ->
  h1 <> "" -> h2 <> "" ->
  effective_token h1 = effective_token h2 ->
  verify_token env r1 w = verify_token env r2 w.
Proof.
  intros H1 H2 N1 N2 E. unfold verify_token. rewrite H1, H2.
  destruct (String.eqb_spec h1 ""); [contradiction|].
  destruct (String.eqb_spec h2 ""); [contradiction|].
  unfold effective_token in E. by rewrite E.
Qed.

Lemma verify_token_bearer_optional_witness :
  verify_token (auth_env 60 0) (bearer_request "Bearer tok") empty_world =
  verify_token (auth_env 60 0) (bearer_request "tok") empty_world.
Proof.
  apply (verify_token_bearer_optional (auth_env 60 0) (bearer_request "Bearer tok")
           (bearer_request "tok") "Bearer tok" "tok" empty_world).
  - reflexivity.
  - reflexivity.
  - discriminate.
  - discriminate.
  - reflexivity.
Defined.

(** ** The rate limiter *)

(** X6. A denied call counts too, and restarts the window: a client that
    has reached the limit and keeps calling, each call less than a window
    after the one before, is denied every time, however long this lasts. *)
Theorem rate_limit_lockout_rolls env self identifier ts :
  (forall c, redis_down env c = false) ->
  forall w c t0,
    counter_entry identifier w = Some {| rval := JNum c; rexp := Some (t0 + window self) |} ->
    max_requests self <= c ->
    within_window (window self) t0 ts ->
    c + Z.of_nat (length ts) < Redis.int64_max ->
    exists w',
      calls env self identifier ts w = (Return (replicate (length ts) false), w') /\
      counter_entry identifier w' =
        Some {| rval := JNum (c + Z.of_nat (length ts));
                rexp := Some (List.last ts t0 + window self) |}.
Proof.
  intros Hup. induction ts as [|t ts IH]; intros w c t0 He Hc Hw Hmax.
  - exists w. simpl. split; [reflexivity|]. by rewrite Z.add_0_r.
  - destruct Hw as [Ht Hw].
    assert (Hlen : Z.of_nat (length (t :: ts)) = 1 + Z.of_nat (length ts))
      by (simpl length; lia).
    rewrite Hlen in Hmax.
    destruct (is_allowed_alive env self identifier Hup w t c _ ltac:(lia) He) as (w1 & R1 & E1);
      [lia | lia |].
    destruct (IH w1 (c + 1) t E1) as (w2 & R2 & E2); [lia | exact Hw | lia |].
    exists w2. split.
    + cbn [calls]. unfold mbind, ST_bind, mret, ST_ret. rewrite R1, R2.
      assert ((c + 1 <=? max_requests self) = false) as -> by lia.
      reflexivity.
    + rewrite E2, Hlen.
      replace (c + 1 + Z.of_nat (length ts)) with (c + (1 + Z.of_nat (length ts))) by lia.
      by rewrite last_cons_default.
Qed.

Lemma rate_limit_lockout_rolls_witness :
  exists w',
    calls quiet_env rate_limiter "10.0.0.7:curl" [3599; 7198; 10797] saturated =
      (Return [false; false; false], w') /\
    counter_entry "10.0.0.7:curl" w' = Some {| rval := JNum 103; rexp := Some 14397 |}.
Proof.
  apply (rate_limit_lockout_rolls quiet_env rate_limiter "10.0.0.7:curl"
           [3599; 7198; 10797] (fun _ => eq_refl) saturated 100 0).
  - vm_compute. reflexivity.
  - vm_compute. discriminate.
  - vm_compute. repeat split; discriminate.
  - vm_compute. reflexivity.
Defined.

Lemma rate_key_inj i j : rate_key i = rate_key j -> i = j.
Proof. unfold rate_key. intros H. by simplify_eq/=. Qed.

Lemma rate_key_not_token i t : rate_key i <> token_key t.
Proof. unfold rate_key, token_key. intros H. by simplify_eq/=. Qed.

Lemma run_cmd_frame t c (db : gmap string rentry) k :
  match c with INCR k' | EXPIRE k' _ => k' <> k end ->
  (Redis.run_cmd t c db).2 !! k = db !! k.
Proof.
  destruct c as [k'|k' s]; intros Hk; simpl.
  - unfold Redis.incr. destruct (Redis.lookup t k' db) as [e|].
    + destruct (rval e); try reflexivity.
      destruct (_ <? _); [|reflexivity]. simpl. by rewrite lookup_insert_ne.
    + simpl. by rewrite lookup_insert_ne.
  - unfold Redis.expire. destruct (Redis.lookup t k' db) as [e|]; [|reflexivity].
    destruct (s <=? 0); simpl; [by rewrite lookup_delete_ne | by rewrite lookup_insert_ne].
Qed.

(** X7. A call of the rate limiter touches one key only, the counter of its
    identifier, whatever its outcome: the counters of the other identifiers
    and the cached identities stay as they are, and so does the list of
    connections. *)
Theorem is_allowed_touches_one_key env self identifier w :
  let w' := (is_allowed env self identifier w).2 in
  (forall k, k <> rate_key identifier -> redis w' !! k = redis w !! k) /\
  (forall other, other <> identifier -> counter_entry other w' = counter_entry other w) /\
  (forall token, redis w' !! token_key token = redis w !! token_key token) /\
  active_connections w' = active_connections w.
Proof.
  assert (H : forall k, k <> rate_key identifier ->
            redis (is_allowed env self identifier w).2 !! k = redis w !! k).
  { intros k Hk. unfold is_allowed, Redis.execute, Redis.roundtrip, mbind, ST_bind,
      get_state, modify.
    destruct (redis_down env _); [reflexivity|]. cbn [redis log].
    cbn [Redis.run_cmds].
    destruct (Redis.run_cmd (now env) (INCR (rate_key identifier)) (redis w))
      as [r1 db1] eqn:R1.
    destruct (Redis.run_cmd (now env) (EXPIRE (rate_key identifier) (window self)) db1)
      as [r2 db2] eqn:R2.
    assert (Hdb : db2 !! k = redis w !! k).
    { pose proof (run_cmd_frame (now env) (EXPIRE (rate_key identifier) (window self)) db1 k)
        as F2.
      pose proof (run_cmd_frame (now env) (INCR (rate_key identifier)) (redis w) k) as F1.
      rewrite R2 in F2. rewrite R1 in F1. simpl in F1, F2.
      rewrite F2, F1; [reflexivity | |]; congruence. }
    destruct r1 as [n1|], r2 as [n2|]; simpl; exact Hdb. }
  split; [exact H|]. split; [|split].
  - intros other Ho. apply H. intros E. by apply rate_key_inj in E.
  - intros token. apply H. intros E. by apply (rate_key_not_token identifier token).
  - unfold is_allowed, Redis.execute, Redis.roundtrip, mbind, ST_bind, get_state, modify.
    destruct (redis_down env _); [reflexivity|]. cbn [redis log].
    destruct (Redis.run_cmds _ _ _) as [rs db].
    destruct (Redis.replies rs) as [[|n l]|]; reflexivity.
Qed.

(** ** Routes *)

Lemma prefix_drop_chars (a b : string) :
  String.prefix a b = true -> b = a +:+ drop_chars (String.length a) b.
Proof.
  revert b. induction a as [|c a IH]; intros b H; [reflexivity|].
  destruct b as [|c' b]; [discriminate|].
  cbn [String.prefix] in H. destruct (Ascii.ascii_dec c c') as [->|]; [|discriminate].
  cbn [String.length drop_chars]. rewrite append_cons. f_equal. by apply IH.
Qed.

Lemma append_assoc_str (a b c : string) : (a +:+ b) +:+ c = a +:+ (b +:+ c).
Proof.
  induction a as [|x a IH]; [by rewrite !append_empty_l|].
  rewrite !append_cons. by f_equal.
Qed.

Lemma match_service_path path service p :
  match_service path service = Some p -> path = "/" +:+ service +:+ "/" +:+ p.
Proof.
  unfold match_service.
  destruct (String.prefix ("/" +:+ service +:+ "/") path) eqn:P; [|discriminate].
  intros [= <-]. apply prefix_drop_chars in P.
  etrans; [exact P|]. by rewrite !append_assoc_str.
Qed.

Lemma first_service_sound path services s p :
  first_service path services = Some (s, p) ->
  s ∈ services /\ path = "/" +:+ s +:+ "/" +:+ p.
Proof.
  induction services as [|x rest IH]; [discriminate|]. simpl.
  destruct (match_service path x) as [q|] eqn:Mx.
  - intros [= <- <-]. split; [by left|]. by apply match_service_path.
  - intros H. apply IH in H as [? ?]. split; [by right | done].
Qed.

Lemma protected_services_configured s :
  s ∈ protected_services -> is_Some (SERVICES !! s).
Proof.
  unfold protected_services. rewrite !elem_of_cons, elem_of_nil.
  intros [->|[->|[->|[->|[->|[->|[]]]]]]]; by eexists.
Qed.

Lemma route_table request :
  match route request with
  | health_route => req_path request = "/health" /\ req_method request = "GET"
  | auth_route target =>
      req_path request = "/auth" +:+ target /\ req_method request = "POST" /\
      is_Some (SERVICES !! "auth")
  | service_route service path =>
      req_path request = "/" +:+ service +:+ "/" +:+ path /\
      req_method request ∈ ["GET"; "POST"; "PUT"; "DELETE"] /\
      is_Some (SERVICES !! service)
  | dashboard_route => req_path request = "/dashboard/summary" /\ req_method request = "GET"
  | no_route => True
  end.
Proof.
  unfold route.
  destruct (String.eqb_spec (req_path request) "/health") as [Hp|_]; cbn [andb].
  { destruct (String.eqb_spec (req_method request) "GET"); [done|].
    rewrite Hp. exact I. }
  destruct (public_routes !! req_path request) as [target|] eqn:Pub.
  { destruct (String.eqb_spec (req_method request) "POST"); [|exact I].
    split; [|split; [done | by eexists]].
    unfold public_routes in Pub. apply elem_of_list_to_map_2 in Pub.
    rewrite !elem_of_cons, elem_of_nil in Pub.
    destruct Pub as [[= -> ->]|[[= -> ->]|[[= -> ->]|[[= -> ->]|[]]]]]; reflexivity. }
  destruct (first_service (req_path request) protected_services) as [[s p]|] eqn:F.
  { case_bool_decide; [|exact I].
    apply first_service_sound in F as [Hs Hp].
    split; [exact Hp|]. split; [done|]. by apply protected_services_configured. }
  destruct (String.eqb_spec (req_path request) "/dashboard/summary"); cbn [andb]; [|exact I].
  by destruct (String.eqb_spec (req_method request) "GET").
Qed.

(** X8. The route table is sound: a request reaches an endpoint only with
    the path and a method of that endpoint's route, and the service that a
    proxying endpoint names is always configured, so a request from outside
    can never meet the proxy's "service not found". The path sent on is the
    rest of the path after the service prefix. *)
Theorem route_sound request :
  match route request with
  | health_route => req_path request = "/health" /\ req_method request = "GET"
  | auth_route target =>
      req_path request = "/auth" +:+ target /\ req_method request = "POST" /\
      is_Some (SERVICES !! "auth")
  | service_route service path =>
      req_path request = "/" +:+ service +:+ "/" +:+ path /\
      req_method request ∈ ["GET"; "POST"; "PUT"; "DELETE"] /\
      is_Some (SERVICES !! service)
  | dashboard_route => req_path request = "/dashboard/summary" /\ req_method request = "GET"
  | no_route => True
  end.
Proof. exact (route_table request). Qed.

(** X9. Only GET, POST, PUT and DELETE requests reach an endpoint: a PATCH
    request is never proxied, although the proxy would forward its body. *)
Theorem routed_methods request :
  route request <> no_route ->
  req_method request ∈ ["GET"; "POST"; "PUT"; "DELETE"].
Proof.
  intros H. pose proof (route_table request) as S.
  destruct (route request); [| | | |contradiction].
  - destruct S as [_ ->]. set_solver.
  - destruct S as (_ & -> & _). set_solver.
  - by destruct S as (_ & ? & _).
  - destruct S as [_ ->]. set_solver.
Qed.

Lemma routed_methods_witness :
  req_method (bearer_request "Bearer tok") ∈ ["GET"; "POST"; "PUT"; "DELETE"].
Proof.
  apply (routed_methods (bearer_request "Bearer tok")).
  vm_compute. discriminate.
Defined.

(** ** The proxy *)

Lemma proxy_request_responds env service_name service_url path request request_id w r :
  SERVICES !! service_name = Some service_url ->
  req_state_id request = Some request_id ->
  httpx_send env (proxy_call service_url path request_id request) = Responds r ->
  proxy_request env service_name path request w =
    let w' := log (EvHttp (proxy_call service_url path request_id request)) w in
    if announces_json r
    then match resp_json r with
         | Some j => (Return (JSONResponse j (status_code r) (passed_headers r)), w')
         | None => (Raise (ValueError "JSONDecodeError"), w')
         end
    else (Return (JSONResponse (JStr (resp_text r)) (status_code r) (passed_headers r)), w').
Proof.
  intros Hs Hid Hsend. unfold proxy_request. rewrite Hs, Hid.
  unfold try_except, mbind, ST_bind, send.
  fold (proxy_call service_url path request_id request). rewrite Hsend.
  fold (announces_json r). fold (passed_headers r).
  destruct (announces_json r); [|reflexivity].
  unfold response_json. by destruct (resp_json r).
Qed.

(** X10. An answer of the backend is passed on with its status, whatever
    the status is, and with its headers except content-encoding and
    transfer-encoding; the body is the parsed JSON when the content type
    starts with application/json and the text otherwise. *)
Theorem proxy_passes_answer_on env service_name service_url path request request_id w r :
  SERVICES !! service_name = Some service_url ->
  req_state_id request = Some request_id ->
  httpx_send env (proxy_call service_url path request_id request) = Responds r ->
  (announces_json r = true -> is_Some (resp_json r)) ->
  exists response,
    proxy_request env service_name path request w =
      (Return response, log (EvHttp (proxy_call service_url path request_id request)) w) /\
    r_status response = status_code r /\
    r_headers response !! "content-encoding" = None /\
    r_headers response !! "transfer-encoding" = None /\
    (forall k, k <> "content-encoding" -> k <> "transfer-encoding" ->
       r_headers response !! k = resp_headers r !! k) /\
    r_content response =
      (if announces_json r then default JNull (resp_json r) else JStr (resp_text r)).
Proof.
  intros Hs Hid Hsend Hjson.
  rewrite (proxy_request_responds env _ _ _ _ _ w r Hs Hid Hsend). cbv zeta.
  assert (Hh : passed_headers r !! "content-encoding" = None /\
               passed_headers r !! "transfer-encoding" = None /\
               forall k, k <> "content-encoding" -> k <> "transfer-encoding" ->
                 passed_headers r !! k = resp_headers r !! k).
  { unfold passed_headers. split; [|split].
    - rewrite lookup_delete_ne by done. apply lookup_delete_eq.
    - apply lookup_delete_eq.
    - intros k H1 H2. by rewrite !lookup_delete_ne. }
  destruct (announces_json r).
  - destruct (Hjson eq_refl) as [j ->]. eexists. split; [reflexivity|]. simpl. tauto.
  - eexists. split; [reflexivity|]. simpl. tauto.
Qed.

Lemma proxy_passes_answer_on_witness :
  proxy_request (with_backend (fun _ => Responds html_page) quiet_env)
    "billing" "/invoices" tracked_request empty_world =
    (Return (JSONResponse (JStr "<h1>Not Found</h1>") 404
               (<["content-type" := "text/html"]> {["x-served-by" := "billing-1"]})),
     log (EvHttp (proxy_call "http://billing-service:8005" "/invoices" "3f0c" tracked_request))
       empty_world).
Proof.
  destruct (proxy_passes_answer_on (with_backend (fun _ => Responds html_page) quiet_env)
              "billing" "http://billing-service:8005" "/invoices" tracked_request "3f0c"
              empty_world html_page)
    as (response & H & _).
  - reflexivity.
  - reflexivity.
  - reflexivity.
  - vm_compute. discriminate.
  - rewrite H. vm_compute in H. by injection H as <-.
Defined.

(** X11. A backend answer that announces JSON and cannot be parsed is not
    one of the proxy's failures: the [ValueError] of [response.json()] is
    neither a timeout nor a request error, so it leaves [proxy_request], and
    the application does not turn it into a response. *)
Theorem proxy_unparsable_json_raises env request target request_id w r :
  route request = auth_route target ->
  req_state_id request = Some request_id ->
  httpx_send env (proxy_call auth_url target request_id request) = Responds r ->
  announces_json r = true ->
  resp_json r = None ->
  proxy_request env "auth" target request w =
    (Raise (ValueError "JSONDecodeError"),
     log (EvHttp (proxy_call auth_url target request_id request)) w) /\
  call_next env request w =
    (Raise (ValueError "JSONDecodeError"),
     log (EvHttp (proxy_call auth_url target request_id request)) w).
Proof.
  intros Hr Hid Hsend Ha Hj.
  assert (P : proxy_request env "auth" target request w =
            (Raise (ValueError "JSONDecodeError"),
             log (EvHttp (proxy_call auth_url target request_id request)) w)).
  { rewrite (proxy_request_responds env "auth" auth_url target request request_id w r
               SERVICES_auth Hid Hsend).
    cbv zeta. by rewrite Ha, Hj. }
  split; [exact P|].
  unfold call_next, try_except. rewrite Hr. cbn [endpoint_response]. by rewrite P.
Qed.

Lemma proxy_unparsable_json_raises_witness :
  call_next (with_backend (fun _ => Responds broken_json) quiet_env) login_request empty_world =
    (Raise (ValueError "JSONDecodeError"),
     log (EvHttp (proxy_call auth_url "/login" "3f0c" login_request)) empty_world).
Proof.
  destruct (proxy_unparsable_json_raises (with_backend (fun _ => Responds broken_json) quiet_env)
              login_request "/login" "3f0c" empty_world broken_json) as [_ H].
  - reflexivity.
  - reflexivity.
  - reflexivity.
  - reflexivity.
  - reflexivity.
  - exact H.
Defined.

Lemma dict_set_keys k v (d : list (string * string)) k' :
  k' ∈ (dict_set k v d).*1 <-> k' = k \/ k' ∈ d.*1.
Proof.
  induction d as [|[k0 v0] d IH]; simpl.
  - rewrite list_elem_of_singleton. split; [by left | intros [?|H]; [done | inversion H]].
  - destruct (decide (k = k0)) as [->|Hk]; simpl.
    + rewrite !elem_of_cons. tauto.
    + rewrite !elem_of_cons, IH. tauto.
Qed.

Lemma dict_set_NoDup k v (d : list (string * string)) :
  NoDup d.*1 -> NoDup (dict_set k v d).*1.
Proof.
  induction d as [|[k0 v0] d IH]; simpl.
  - intros _. apply NoDup_singleton.
  - intros [Hk0 Hd]%NoDup_cons. destruct (decide (k = k0)) as [->|Hk]; simpl.
    + by apply NoDup_cons.
    + apply NoDup_cons. split; [|by apply IH].
      rewrite dict_set_keys. intros [?|?]; [by subst | done].
Qed.

Lemma dict_set_items k v (d : list (string * string)) k' v' :
  NoDup d.*1 ->
  (k', v') ∈ dict_set k v d <-> (k' = k /\ v' = v) \/ (k' <> k /\ (k', v') ∈ d).
Proof.
  induction d as [|[k0 v0] d IH]; simpl.
  - intros _. rewrite list_elem_of_singleton. split.
    + intros [= -> ->]. by left.
    + intros [[-> ->]|[_ H]]; [done | inversion H].
  - intros [Hk0 Hd]%NoDup_cons. destruct (decide (k = k0)) as [->|Hk].
    + rewrite !elem_of_cons. split.
      * intros [[= -> ->]|H]; [by left|].
        right. split; [|by right]. intros ->. apply Hk0.
        apply list_elem_of_fmap. by exists (k0, v').
      * intros [[-> ->]|[Hne [[= -> ->]|H]]]; [by left | done | by right].
    + rewrite !elem_of_cons, (IH Hd). split.
      * intros [[= -> ->]|[[-> ->]|[Hne H]]].
        -- right. split; [by intros -> | by left].
        -- by left.
        -- right. split; [done | by right].
      * intros [[-> ->]|[Hne [[= -> ->]|H]]].
        -- right. by left.
        -- by left.
        -- right. right. done.
Qed.

Lemma query_items_snoc (query : list (string * string)) k v :
  query_items (query ++ [(k, v)]) = dict_set k v (query_items query).
Proof. unfold query_items. by rewrite foldl_app. Qed.

(** The items of the query that is sent: one for each key of the query
    string, with the value of its last occurrence. *)
Lemma query_items_last (query : list (string * string)) :
  NoDup (query_items query).*1 /\
  forall k v,
    (k, v) ∈ query_items query <->
    exists before after, query = before ++ (k, v) :: after /\ k ∉ after.*1.
Proof.
  induction query as [|[k0 v0] query [IHn IH]] using rev_ind.
  - split; [apply NoDup_nil_2|]. intros k v. split.
    + intros H. inversion H.
    + intros (before & after & H & _). by destruct before.
  - rewrite query_items_snoc. split; [by apply dict_set_NoDup|].
    intros k v. rewrite (dict_set_items _ _ _ _ _ IHn). split.
    + intros [[-> ->]|[Hne H]].
      * exists query, []. split; [done|]. simpl. apply not_elem_of_nil.
      * apply IH in H as (before & after & -> & Hk).
        exists before, (after ++ [(k0, v0)]). split; [by rewrite <- app_assoc|].
        rewrite fmap_app. simpl. rewrite elem_of_app, list_elem_of_singleton. tauto.
    + intros (before & after & H & Hk).
      destruct after as [|x after _] using rev_ind.
      * apply app_inj_tail in H as [_ [= -> ->]]. by left.
      * rewrite app_comm_cons, app_assoc in H. apply app_inj_tail in H as [-> <-].
        rewrite fmap_app, elem_of_app in Hk. simpl in Hk.
        rewrite list_elem_of_singleton in Hk.
        right. split; [tauto|]. apply IH. exists before, after. tauto.
Qed.

(** X12. Whatever the backend does, the proxy makes exactly one call and
    changes nothing else. The call has the method and the path of the
    request behind the base URL, a timeout of 30 seconds, and the body only
    for POST, PUT and PATCH. Of the query string it has one parameter for
    each key, with the value of the last occurrence of the key: a repeated
    key loses its earlier values. Every header of the request goes on
    unchanged under its own name, the client's own x-request-id and
    x-forwarded-for included; the gateway's request id and the client
    address are added under the names X-Request-ID and X-Forwarded-For. *)
Theorem proxy_sends_one_call env service_name service_url path request request_id w :
  SERVICES !! service_name = Some service_url ->
  req_state_id request = Some request_id ->
  exists out c,
    proxy_request env service_name path request w = (out, log (EvHttp c) w) /\
    c_method c = req_method request /\
    c_url c = service_url +:+ path /\
    c_params c = query_items (req_query request) /\
    NoDup (c_params c).*1 /\
    (forall k v,
       (k, v) ∈ c_params c <->
       exists before after,
         req_query request = before ++ (k, v) :: after /\ k ∉ after.*1) /\
    c_timeout c = 30 /\
    c_content c =
      (if bool_decide (req_method request ∈ ["POST"; "PUT"; "PATCH"])
       then Some (req_body request) else None) /\
    c_headers c !! "X-Request-ID" = Some (Some request_id) /\
    c_headers c !! "X-Forwarded-For" = Some (Some (req_client_host request)) /\
    (forall k, k <> "X-Request-ID" -> k <> "X-Forwarded-For" ->
       c_headers c !! k = Some <$> req_headers request !! k).
Proof.
  intros Hs Hid.
  assert (exists out, proxy_request env service_name path request w =
            (out, log (EvHttp (proxy_call service_url path request_id request)) w))
    as [out Hout].
  { destruct (httpx_send env (proxy_call service_url path request_id request)) as [r|e] eqn:S.
    - rewrite (proxy_request_responds env _ _ _ _ _ w r Hs Hid S). cbv zeta.
      destruct (announces_json r); [destruct (resp_json r)|]; by eexists.
    - unfold proxy_request. rewrite Hs, Hid. unfold try_except, mbind, ST_bind, send.
      fold (proxy_call service_url path request_id request). rewrite S.
      destruct e as [x msg| | | |]; [destruct (is_TimeoutException x)| | | |]; by eexists. }
  destruct (query_items_last (req_query request)) as [Hnodup Hlast].
  exists out, (proxy_call service_url path request_id request).
  split; [exact Hout|].
  split; [reflexivity|]. split; [reflexivity|]. split; [reflexivity|].
  split; [exact Hnodup|]. split; [exact Hlast|].
  split; [reflexivity|]. split; [reflexivity|]. split; [|split].
  - cbn [c_headers proxy_call]. rewrite lookup_insert_ne by done. apply lookup_insert_eq.
  - apply lookup_insert_eq.
  - intros k H1 H2. cbn [c_headers proxy_call].
    rewrite !lookup_insert_ne by done. apply lookup_fmap.
Qed.

Lemma proxy_sends_one_call_witness :
  exists out c,
    proxy_request quiet_env "billing" "/invoices" repeated_query_request empty_world =
      (out, log (EvHttp c) empty_world) /\
    c_url c = "http://billing-service:8005/invoices" /\
    c_params c = [("a", "2"); ("b", "3")] /\
    c_content c = None /\
    c_headers c !! "authorization" = Some (Some "Bearer tok").
Proof.
  destruct (proxy_sends_one_call quiet_env "billing" "http://billing-service:8005" "/invoices"
              repeated_query_request "3f0c" empty_world)
    as (out & c & H & _ & Hu & Hp & _ & _ & _ & Hc & _ & _ & Hh).
  - reflexivity.
  - reflexivity.
  - exists out, c. split; [exact H|]. split; [exact Hu|]. split; [exact Hp|].
    split; [exact Hc|]. rewrite Hh by discriminate. reflexivity.
Defined.

(** ** The pipeline *)

(** X13. A protected route does nothing before the token is verified, and
    nothing after a verification that fails: the answer is 401 and the
    state is the one that the verification left, so no backend was called.
    Without an Authorization header the state is not touched at all. *)
Theorem protected_route_requires_identity env request w user w1 :
  match route request with
  | service_route _ _ | dashboard_route => True
  | _ => False
  end ->
  verify_token env request w = (Return user, w1) ->
  truthy user = false ->
  call_next env request w =
    (Return (JSONResponse (JObj {["detail" := JStr "Token inválido o expirado"]}) 401 ∅), w1) /\
  (req_headers request !! "authorization" = None -> w1 = w).
Proof.
  intros Hr Hv Ht. split.
  - unfold call_next, try_except.
    assert (G : get_current_user env request w =
              (Raise (HTTPException 401 "Token inválido o expirado"), w1)).
    { unfold get_current_user, mbind, ST_bind. by rewrite Hv, Ht. }
    destruct (route request); try contradiction;
      cbn [endpoint_response]; unfold mbind, ST_bind; by rewrite G.
  - intros Hn. rewrite verify_token_no_header in Hv by (by left). by injection Hv as _ <-.
Qed.

Lemma protected_route_requires_identity_witness :
  call_next quiet_env anonymous_request empty_world =
    (Return (JSONResponse (JObj {["detail" := JStr "Token inválido o expirado"]}) 401 ∅),
     empty_world).
Proof.
  destruct (protected_route_requires_identity quiet_env anonymous_request empty_world
              JNull empty_world) as [H _].
  - vm_compute. exact I.
  - reflexivity.
  - reflexivity.
  - exact H.
Defined.

(** X14. A request that the rate limiter denies reaches no route: the
    answer is 429 and the only call made is the limiter's transaction, so
    no token is looked up and no backend is called, whatever the request
    is. *)
Theorem denied_request_reaches_nothing env request w :
  redis_down env (EXEC (limiter_cmds rate_limiter (client_identifier request))) = false ->
  counter_ok (now env) (client_identifier request) w ->
  100 <= count_at (now env) (client_identifier request) w ->
  exists w',
    logging_and_rate_limit_middleware env request w = (Return rate_limited_response, w') /\
    trace w' = trace w ++ [EvRedis (EXEC (limiter_cmds rate_limiter (client_identifier request)))] /\
    active_connections w' = active_connections w /\
    (forall token, redis w' !! token_key token = redis w !! token_key token).
Proof.
  intros Hup Hok Hc.
  pose proof (is_allowed_counts env rate_limiter (client_identifier request) w eq_refl Hup Hok) as A.
  change (max_requests rate_limiter) with 100 in A.
  assert ((count_at (now env) (client_identifier request) w + 1 <=? 100) = false) as E by lia.
  rewrite E in A. eexists. split; [exact (middleware_denied _ _ _ _ A)|].
  split; [reflexivity|]. split; [reflexivity|].
  intros token. cbn [redis counted set_redis log].
  apply lookup_insert_ne, rate_key_not_token.
Qed.

Lemma denied_request_reaches_nothing_witness :
  exists w',
    logging_and_rate_limit_middleware quiet_env (bearer_request "Bearer tok") saturated =
      (Return rate_limited_response, w') /\
    trace w' = trace saturated ++
                 [EvRedis (EXEC (limiter_cmds rate_limiter "10.0.0.7:curl"))] /\
    active_connections w' = active_connections saturated /\
    (forall token, redis w' !! token_key token = redis saturated !! token_key token).
Proof.
  assert (L : Redis.lookup 0 (rate_key "10.0.0.7:curl") (redis saturated) =
              Some {| rval := JNum 100; rexp := Some 3600 |})
    by (vm_compute; reflexivity).
  apply (denied_request_reaches_nothing quiet_env (bearer_request "Bearer tok") saturated).
  - reflexivity.
  - unfold counter_ok.
    change (client_identifier (bearer_request "Bearer tok")) with "10.0.0.7:curl".
    change (now quiet_env) with 0. rewrite L.
    exists 100. split; reflexivity.
  - unfold count_at.
    change (client_identifier (bearer_request "Bearer tok")) with "10.0.0.7:curl".
    change (now quiet_env) with 0. rewrite L. simpl. lia.
Defined.

(** X15. The whole pipeline for a protected route, for a client under the
    limit whose identity is cached: the limiter's transaction, the cache
    lookup and one call to the backend happen in this order, and nothing
    else (the authentication service is not asked). The answer has the
    status and the body of the backend, and its X-Request-ID is the
    request id that the backend received. *)
Theorem protected_request_end_to_end
    env request service path service_url h user deadline r w :
  route request = service_route service path ->
  SERVICES !! service = Some service_url ->
  req_headers request !! "authorization" = Some h ->
  h <> "" ->
  (forall c, redis_down env c = false) ->
  counter_ok (now env) (client_identifier request) w ->
  count_at (now env) (client_identifier request) w < 100 ->
  redis w !! token_key (effective_token h) = Some {| rval := user; rexp := Some deadline |} ->
  now env < deadline ->
  truthy user = true ->
  let call := proxy_call service_url ("/" +:+ path) (uuid4 env)
                (set_request_id (uuid4 env) request) in
  httpx_send env call = Responds r ->
  (announces_json r = true -> is_Some (resp_json r)) ->
  exists response w',
    logging_and_rate_limit_middleware env request w = (Return response, w') /\
    trace w' = trace w ++
      [EvRedis (EXEC (limiter_cmds rate_limiter (client_identifier request)));
       EvRedis (GET (token_key (effective_token h)));
       EvHttp call] /\
    r_status response = status_code r /\
    r_content response =
      (if announces_json r then default JNull (resp_json r) else JStr (resp_text r)) /\
    r_headers response !! "x-request-id" = Some (uuid4 env) /\
    c_headers call !! "X-Request-ID" = Some (Some (uuid4 env)).
Proof.
  intros Hr Hs Hh Hne Hup Hok Hc He Hlt Ht call Hsend Hjson.
  set (identifier := client_identifier request).
  set (tracked := set_request_id (uuid4 env) request).
  pose proof (is_allowed_counts env rate_limiter identifier w eq_refl (Hup _) Hok) as A.
  change (max_requests rate_limiter) with 100 in A.
  assert ((count_at (now env) identifier w + 1 <=? 100) = true) as E
    by (subst identifier; lia).
  rewrite E in A.
  set (w1 := counted identifier (count_at (now env) identifier w + 1)
               (now env + window rate_limiter)
               (log (EvRedis (EXEC (limiter_cmds rate_limiter identifier))) w)) in A.
  assert (He1 : redis w1 !! token_key (effective_token h) =
                Some {| rval := user; rexp := Some deadline |}).
  { subst w1. cbn [redis counted set_redis log].
    rewrite lookup_insert_ne by apply rate_key_not_token. exact He. }
  assert (V : verify_token env tracked w1 =
              (Return user, log (EvRedis (GET (token_key (effective_token h)))) w1)).
  { apply (verify_token_hit env tracked h w1 user Hh Hne (Hup _)).
    fold (effective_token h). by rewrite (lookup_alive _ _ _ _ _ He1 (Z.lt_le_incl _ _ Hlt)). }
  set (w2 := log (EvRedis (GET (token_key (effective_token h)))) w1) in V.
  pose proof (proxy_request_responds env service service_url ("/" +:+ path) tracked
                (uuid4 env) w2 r Hs eq_refl Hsend) as P.
  cbv zeta in P.
  assert (exists content,
            proxy_request env service ("/" +:+ path) tracked w2 =
              (Return (JSONResponse content (status_code r) (passed_headers r)),
               log (EvHttp call) w2) /\
            content = (if announces_json r then default JNull (resp_json r)
                       else JStr (resp_text r))) as (content & P' & Hcontent).
  { destruct (announces_json r).
    - destruct (Hjson eq_refl) as [j Hj]. rewrite Hj in P |- *. by exists j.
    - by eexists. }
  assert (C : call_next env tracked w1 =
              (Return (JSONResponse content (status_code r) (passed_headers r)),
               log (EvHttp call) w2)).
  { unfold call_next, try_except.
    change (route tracked) with (route request). rewrite Hr.
    cbn [endpoint_response]. unfold get_current_user, mbind, ST_bind.
    rewrite V, Ht. unfold mret, ST_ret. by rewrite P'. }
  rewrite (middleware_allowed _ _ _ _ A). fold tracked. rewrite C.
  eexists _, _. split; [reflexivity|].
  split; [subst w2 w1; simpl; by rewrite <- !app_assoc|].
  split; [reflexivity|]. split; [exact Hcontent|]. split.
  - unfold set_header at 1. cbn [r_headers]. rewrite lookup_insert_ne by done.
    apply (set_header_lookup "X-Request-ID").
  - subst call. cbn [c_headers proxy_call]. rewrite lookup_insert_ne by done.
    apply lookup_insert_eq.
Qed.

Lemma protected_request_end_to_end_witness :
  exists response w',
    logging_and_rate_limit_middleware (with_backend (fun _ => Responds html_page) quiet_env)
      (bearer_request "Bearer tok") alice_cached = (Return response, w') /\
    r_status response = 404 /\
    r_content response = JStr "<h1>Not Found</h1>" /\
    r_headers response !! "x-request-id" = Some "3f0c".
Proof.
  destruct (protected_request_end_to_end
              (with_backend (fun _ => Responds html_page) quiet_env)
              (bearer_request "Bearer tok") "clients" "42" "http://clients-pets-service:8002"
              "Bearer tok" alice 600 html_page alice_cached)
    as (response & w' & H & _ & Hs & Hc & Hi & _).
  - reflexivity.
  - reflexivity.
  - reflexivity.
  - discriminate.
  - reflexivity.
  - exact I.
  - vm_compute. reflexivity.
  - vm_compute. reflexivity.
  - reflexivity.
  - reflexivity.
  - reflexivity.
  - vm_compute. discriminate.
  - exists response, w'. split; [exact H|]. split; [exact Hs|]. split; [exact Hc|exact Hi].
Defined.

(** ** The dashboard summary *)




(** ** The connection manager *)

Lemma remove_connection_member ws w :
  ws ∈ active_connections w ->
  exists l1 l2,
    active_connections w = l1 ++ ws :: l2 /\ (ws ∉ l1) /\
    remove_connection ws w = (Return tt, set_connections (l1 ++ l2) w).
Proof.
  intros H. apply list_elem_of_split_l in H as (l1 & l2 & E & Hn).
  exists l1, l2. split; [exact E|]. split; [exact Hn|].
  by apply remove_connection_first.
Qed.

(** X17. When every write succeeds, [broadcast] delivers the message to
    every live connection, once for each place in the list and in the order
    of the list, and leaves the list as it is. *)
Theorem broadcast_all_alive env message w :
  (forall c, c ∈ active_connections w -> send_fails env c message = false) ->
  broadcast env message w =
    (Return tt, logs (map (fun c => EvDelivered c message) (active_connections w)) w).
Proof.
  intros Hok. unfold broadcast, mbind, ST_bind, get_state.
  rewrite broadcast_from_delivers; [reflexivity | simpl; lia | exact Hok].
Qed.

Lemma broadcast_all_alive_witness :
  broadcast quiet_env "ready" (connected [4; 5; 6]%nat) =
    (Return tt,
     logs [EvDelivered 4%nat "ready"; EvDelivered 5%nat "ready"; EvDelivered 6%nat "ready"]
       (connected [4; 5; 6]%nat)).
Proof.
  apply (broadcast_all_alive quiet_env "ready" (connected [4; 5; 6]%nat)).
  reflexivity.
Defined.

Lemma broadcast_from_keeps env message fuel :
  forall i w,
    exists w',
      broadcast_from env fuel i message w = (Return tt, w') /\
      active_connections w' `sublist_of` active_connections w /\
      redis w' = redis w /\
      (forall c, c ∈ active_connections w -> send_fails env c message = false ->
         c ∈ active_connections w') /\
      exists evs,
        trace w' = trace w ++ evs /\
        Forall (fun ev => exists c, ev = EvDelivered c message /\
                            c ∈ active_connections w /\
                            send_fails env c message = false) evs.
Proof.
  induction fuel as [|fuel IH]; intros i w.
  - exists w. split; [reflexivity|]. split; [reflexivity|]. split; [reflexivity|].
    split; [auto|]. exists []. split; [by rewrite app_nil_r | constructor].
  - cbn [broadcast_from]. unfold mbind, ST_bind, get_state.
    destruct (active_connections w !! i) as [c|] eqn:L.
    2:{ exists w. split; [reflexivity|]. split; [reflexivity|]. split; [reflexivity|].
        split; [auto|]. exists []. split; [by rewrite app_nil_r | constructor]. }
    assert (Hc : c ∈ active_connections w) by (apply list_elem_of_lookup; eauto).
    unfold try_except, send_text.
    destruct (send_fails env c message) eqn:F.
    + destruct (remove_connection_member c w Hc) as (l1 & l2 & E & Hn & R).
      rewrite R.
      destruct (IH (S i) (set_connections (l1 ++ l2) w))
        as (w' & B & Hsub & Hr & Hkeep & evs & Ht & Hev).
      exists w'. split; [exact B|]. cbn [active_connections set_connections] in *.
      split; [|split; [exact Hr|split]].
      * etrans; [exact Hsub|]. rewrite E. apply sublist_app; [reflexivity|].
        by apply sublist_cons.
      * intros x Hx Hxok. apply Hkeep; [|exact Hxok].
        rewrite E in Hx. rewrite elem_of_app, elem_of_cons in Hx.
        rewrite elem_of_app. destruct Hx as [?|[->|?]]; [by left | congruence | by right].
      * exists evs. split; [exact Ht|].
        eapply Forall_impl; [exact Hev|]. intros ev (x & -> & Hx & Hxok).
        exists x. split; [reflexivity|]. split; [|exact Hxok].
        rewrite E. rewrite elem_of_app in Hx. rewrite elem_of_app, elem_of_cons.
        destruct Hx; [by left | by right; right].
    + destruct (IH (S i) (log (EvDelivered c message) w))
        as (w' & B & Hsub & Hr & Hkeep & evs & Ht & Hev).
      exists w'. split; [exact B|]. cbn [active_connections redis trace log] in *.
      split; [exact Hsub|]. split; [exact Hr|]. split; [exact Hkeep|].
      exists (EvDelivered c message :: evs). split.
      * rewrite Ht. by rewrite <- app_assoc.
      * constructor; [by exists c | exact Hev].
Qed.

(** X18. [broadcast] never raises, whichever writes fail. It only
    removes connections: the list afterwards is a sublist of the list
    before, and a connection whose writes succeed is never removed. The
    message is delivered only to connections of the list whose writes
    succeed, and nothing else is called; the cache is not touched. *)
Theorem broadcast_only_prunes env message w :
  exists w',
    broadcast env message w = (Return tt, w') /\
    active_connections w' `sublist_of` active_connections w /\
    redis w' = redis w /\
    (forall c, c ∈ active_connections w -> send_fails env c message = false ->
       c ∈ active_connections w') /\
    exists evs,
      trace w' = trace w ++ evs /\
      Forall (fun ev => exists c, ev = EvDelivered c message /\
                          c ∈ active_connections w /\
                          send_fails env c message = false) evs.
Proof.
  unfold broadcast, mbind, ST_bind, get_state.
  apply broadcast_from_keeps.
Qed.

(** X19. With one closed connection [k] in the list, [broadcast] removes
    [k] and passes over the connection [c] that follows it: [c] stays in
    the list and its write would succeed, yet the message goes to the
    connections before [k] and to those after [c] only. *)
Theorem broadcast_passes_over_follower env message l1 k c l2 w :
  active_connections w = l1 ++ k :: c :: l2 ->
  k ∉ l1 -> k ∉ c :: l2 ->
  (forall x, send_fails env x message = bool_decide (x = k)) ->
  broadcast env message w =
    (Return tt,
     set_connections (l1 ++ c :: l2)
       (logs (map (fun x => EvDelivered x message) (l1 ++ l2)) w)) /\
  send_fails env c message = false.
Proof.
  intros E H1 H2 Hf. split.
  - exact (broadcast_one_failure env message l1 k (c :: l2) w E H1 H2 Hf).
  - rewrite Hf. apply bool_decide_eq_false. intros ->. apply H2. by left.
Qed.

Lemma broadcast_passes_over_follower_witness :
  broadcast (peer_gone 5%nat) "ready" (connected [4; 5; 6; 7]%nat) =
    (Return tt,
     set_connections [4; 6; 7]%nat
       (logs [EvDelivered 4%nat "ready"; EvDelivered 7%nat "ready"]
          (connected [4; 5; 6; 7]%nat))) /\
  send_fails (peer_gone 5%nat) 6%nat "ready" = false.
Proof.
  apply (broadcast_passes_over_follower (peer_gone 5%nat) "ready" [4%nat] 5%nat 6%nat [7%nat]
           (connected [4; 5; 6; 7]%nat)).
  - reflexivity.
  - apply (bool_decide_unpack (5%nat ∉ [4%nat])). vm_compute. exact I.
  - apply (bool_decide_unpack (5%nat ∉ [6%nat; 7%nat])). vm_compute. exact I.
  - reflexivity.
Defined.

(** ** The WebSocket endpoint *)

Lemma set_connections_same w : set_connections (active_connections w) w = w.
Proof. by destruct w. Qed.

Lemma connect_then_remove ws w :
  ws ∉ active_connections w ->
  remove_connection ws (set_connections (active_connections w ++ [ws]) w) = (Return tt, w).
Proof.
  intros H.
  rewrite (remove_connection_first ws _ (active_connections w) []); [|reflexivity|exact H].
  rewrite app_nil_r. unfold set_connections at 1. cbn [redis active_connections trace set_connections].
  by destruct w.
Qed.

(** X20. A connection joins at the end of the list, and [disconnect] undoes
    [connect]: for a connection that was not in the list, connecting and
    then disconnecting gives back the list as it was. *)
Theorem connect_disconnect_round_trip ws w :
  ws ∉ active_connections w ->
  connect ws w = (Return tt, set_connections (active_connections w ++ [ws]) w) /\
  (_ ← connect ws; disconnect ws) w = (Return tt, w).
Proof.
  intros H. split; [reflexivity|].
  unfold mbind, ST_bind, connect, modify, disconnect.
  by apply connect_then_remove.
Qed.

Lemma connect_disconnect_round_trip_witness :
  (_ ← connect 9%nat; disconnect 9%nat) (connected [4; 5]%nat) =
    (Return tt, connected [4; 5]%nat).
Proof.
  destruct (connect_disconnect_round_trip 9%nat (connected [4; 5]%nat)) as [_ H].
  - apply (bool_decide_unpack (9%nat ∉ [4%nat; 5%nat])). vm_compute. exact I.
  - exact H.
Defined.

(** X21. The endpoint cleans up only after [WebSocketDisconnect]: when the
    peer disconnects, the connection leaves the list, which is then as it
    was before the connection came; when [receive_text] ends with any other
    exception, the exception leaves the endpoint and the connection stays
    in the list. *)
Theorem websocket_endpoint_cleanup ws ending w :
  ws ∉ active_connections w ->
  websocket_endpoint ws ending w =
    if is_WebSocketDisconnect ending
    then (Return tt, w)
    else (Raise ending, set_connections (active_connections w ++ [ws]) w).
Proof.
  intros H. unfold websocket_endpoint, mbind, ST_bind, connect, modify, try_except,
    receive_until, raise.
  destruct (is_WebSocketDisconnect ending); [|reflexivity].
  by apply connect_then_remove.
Qed.

Lemma websocket_endpoint_cleanup_witness :
  websocket_endpoint 9%nat WebSocketDisconnect (connected [4; 5]%nat) =
    (Return tt, connected [4; 5]%nat) /\
  websocket_endpoint 9%nat (OtherException "RuntimeError") (connected [4; 5]%nat) =
    (Raise (OtherException "RuntimeError"), connected [4; 5; 9]%nat).
Proof.
  assert (H : 9%nat ∉ active_connections (connected [4; 5]%nat))
    by (apply (bool_decide_unpack (9%nat ∉ [4%nat; 5%nat])); vm_compute; exact I).
  split.
  - exact (websocket_endpoint_cleanup 9%nat WebSocketDisconnect (connected [4; 5]%nat) H).
  - exact (websocket_endpoint_cleanup 9%nat (OtherException "RuntimeError")
             (connected [4; 5]%nat) H).
Defined.

(** X22. A connection that a broadcast has removed can no longer be
    disconnected: after [connect], a [broadcast] whose write to the
    connection fails, and the [disconnect] of the endpoint, the
    [disconnect] raises [ValueError] (which the endpoint does not catch);
    the other connections got the message and are still in the list. *)
Theorem disconnect_after_pruning_raises env message ws w :
  ws ∉ active_connections w ->
  (forall x, send_fails env x message = bool_decide (x = ws)) ->
  (_ ← connect ws; _ ← broadcast env message; disconnect ws) w =
    (Raise not_in_list,
     logs (map (fun x => EvDelivered x message) (active_connections w)) w).
Proof.
  intros H Hf. unfold mbind, ST_bind, connect, modify.
  rewrite (broadcast_one_failure env message (active_connections w) ws []
             (set_connections (active_connections w ++ [ws]) w) eq_refl H
             (not_elem_of_nil ws) Hf).
  rewrite !app_nil_r. unfold disconnect.
  rewrite remove_connection_absent by exact H.
  reflexivity.
Qed.

Lemma disconnect_after_pruning_raises_witness :
  (_ ← connect 9%nat; _ ← broadcast (peer_gone 9%nat) "ready"; disconnect 9%nat)
    (connected [4; 5]%nat) =
    (Raise not_in_list,
     logs [EvDelivered 4%nat "ready"; EvDelivered 5%nat "ready"] (connected [4; 5]%nat)).
Proof.
  apply (disconnect_after_pruning_raises (peer_gone 9%nat) "ready" 9%nat (connected [4; 5]%nat)).
  - apply (bool_decide_unpack (9%nat ∉ [4%nat; 5%nat])). vm_compute. exact I.
  - reflexivity.
Defined.

(** ** Public routes and the dashboard route *)

(** X23. The public routes of the authentication service are forwarded
    without any verification: whatever Authorization header the request
    has or lacks, the only call is the one to the authentication service,
    with the path of the route, and the cache is not read. A timeout or a
    failure of the transport comes back as a response, not as an
    exception. *)
Theorem public_route_forwards_unverified env request target request_id w :
  route request = auth_route target ->
  req_state_id request = Some request_id ->
  exists out,
    call_next env request w =
      (out, log (EvHttp (proxy_call auth_url target request_id request)) w) /\
    c_url (proxy_call auth_url target request_id request) = auth_url +:+ target /\
    (forall x msg,
       httpx_send env (proxy_call auth_url target request_id request) = Fails (HttpxError x msg) ->
       exists response, out = Return response /\
         r_status response = (if is_TimeoutException x then 504 else 503)).
Proof.
  intros Hr Hid.
  unfold call_next, try_except. rewrite Hr. cbn [endpoint_response].
  destruct (httpx_send env (proxy_call auth_url target request_id request)) as [r|e] eqn:S.
  - rewrite (proxy_request_responds env "auth" auth_url target request request_id w r
               SERVICES_auth Hid S). cbv zeta.
    destruct (announces_json r); [destruct (resp_json r)|];
      eexists; (split; [reflexivity|]); (split; [reflexivity|]); intros x msg; discriminate.
  - unfold proxy_request. rewrite SERVICES_auth, Hid.
    unfold try_except, mbind, ST_bind, send.
    change "http://auth-service:8001" with auth_url.
    fold (proxy_call auth_url target request_id request). rewrite S.
    destruct e as [x msg| | | |].
    + destruct (is_TimeoutException x) eqn:T;
        eexists; (split; [reflexivity|]); (split; [reflexivity|]);
        intros x' msg' [= <- _]; rewrite T; by eexists.
    + eexists; (split; [reflexivity|]); (split; [reflexivity|]); intros x' msg'; discriminate.
    + eexists; (split; [reflexivity|]); (split; [reflexivity|]); intros x' msg'; discriminate.
    + eexists; (split; [reflexivity|]); (split; [reflexivity|]); intros x' msg'; discriminate.
    + eexists; (split; [reflexivity|]); (split; [reflexivity|]); intros x' msg'; discriminate.
Qed.

Lemma public_route_forwards_unverified_witness :
  exists out,
    call_next (failing_backend ReadTimeout) login_request empty_world =
      (out, log (EvHttp (proxy_call auth_url "/login" "3f0c" login_request)) empty_world) /\
    exists response, out = Return response /\ r_status response = 504.
Proof.
  destruct (public_route_forwards_unverified (failing_backend ReadTimeout) login_request
              "/login" "3f0c" empty_world) as (out & H & _ & Hf).
  - reflexivity.
  - reflexivity.
  - exists out. split; [exact H|].
    exact (Hf ReadTimeout "backend call failed" eq_refl).
Defined.

(** X24. With a valid identity, the dashboard route always answers 200
    with a JSON object: no failure of a backend, in whatever combination,
    makes the endpoint fail or answer with an error status. *)
Theorem dashboard_route_always_answers env request w user w1 :
  route request = dashboard_route ->
  verify_token env request w = (Return user, w1) ->
  truthy user = true ->
  exists summary w',
    call_next env request w = (Return (JSONResponse (JObj summary) 200 ∅), w').
Proof.
  intros Hr Hv Ht. unfold call_next, try_except. rewrite Hr. cbn [endpoint_response].
  unfold get_current_user, mbind, ST_bind. rewrite Hv, Ht. unfold mret, ST_ret.
  destruct (dashboard_summary_returns env request w1) as (summary & w' & ->).
  by exists summary, w'.
Qed.

Lemma dashboard_route_always_answers_witness :
  exists summary w',
    call_next (at_time quiet_env 10) dashboard_request alice_cached =
      (Return (JSONResponse (JObj summary) 200 ∅), w').
Proof.
  apply (dashboard_route_always_answers (at_time quiet_env 10) dashboard_request alice_cached
           alice (log (EvRedis (GET "token:tok")) alice_cached)).
  - reflexivity.
  - vm_compute. reflexivity.
  - reflexivity.
Defined.
